(** * String analyzer service: the analysis-and-query engine

    A shallow embedding of [src/strings/strings.service.ts]
    ([computeProperties], [findAll], [filterByNaturalLanguage],
    [parseNaturalLanguageQuery]) together with the pieces of the
    JavaScript and PostgreSQL semantics those functions rely on.

    A JavaScript string is a sequence of UTF-16 code units; everything
    below ([length], [split], [includes], the regular expressions without
    the [u] flag) works on code units, except string iteration
    ([for ... of], [new Set(value)]), which walks code points. *)

From Stdlib Require Import String Ascii ZArith NArith List Bool Lia.
From Stdlib Require Import Sorting Permutation.
From stdpp Require Import base option list countable gmap fin_maps.

Local Open Scope N_scope.

(** ** JavaScript strings *)

Module JS.

(** A code unit is a number below 65536; a string is a list of them. *)
Abbreviation jsstring := (list N).

(** ASCII literals of the source, as code-unit lists. *)
Definition js (s : string) : jsstring :=
  List.map N_of_ascii (list_ascii_of_string s).

(** [String.prototype.length]: the number of code units. *)
Definition jsLength (s : jsstring) : Z := Z.of_nat (List.length s).

(** [a === b] on strings. *)
Fixpoint strEq (a b : jsstring) : bool :=
  match a, b with
  | [], [] => true
  | x :: a', y :: b' => (x =? y) && strEq a' b'
  | _, _ => false
  end.

(** *** Character classes *)

Definition isHighSurrogate (c : N) : bool := (0xD800 <=? c) && (c <=? 0xDBFF).
Definition isLowSurrogate (c : N) : bool := (0xDC00 <=? c) && (c <=? 0xDFFF).

(** [\d] without the [u] flag: the ten ASCII digits. *)
Definition isDigit (c : N) : bool := (48 <=? c) && (c <=? 57).

(** [[a-z]]. *)
Definition isLowerAZ (c : N) : bool := (97 <=? c) && (c <=? 122).

(** [\s], which is also what [trim] strips: ECMAScript WhiteSpace and
    LineTerminator. *)
Definition isWhiteSpace (c : N) : bool :=
  (9 <=? c) && (c <=? 13)
  || (c =? 0x20) || (c =? 0xA0) || (c =? 0x1680)
  || (0x2000 <=? c) && (c <=? 0x200A)
  || (c =? 0x2028) || (c =? 0x2029) || (c =? 0x202F)
  || (c =? 0x205F) || (c =? 0x3000) || (c =? 0xFEFF).

(** *** Iteration: [for (const char of value)], [new Set(value)]

    The string iterator yields one string per code point: a high
    surrogate followed by a low surrogate comes out as one two-unit
    string, every other code unit (lone surrogates included) on its
    own. *)
Fixpoint codePoints (s : jsstring) : list jsstring :=
  match s with
  | [] => []
  | c :: rest =>
      match rest with
      | d :: rest' =>
          if isHighSurrogate c && isLowSurrogate d
          then [c; d] :: codePoints rest'
          else [c] :: codePoints rest
      | [] => [[c]]
      end
  end.

(** *** [split('')], [reverse()], [join('')] *)

Definition splitEmpty (s : jsstring) : list jsstring :=
  List.map (fun c => [c]) s.

Definition join (parts : list jsstring) : jsstring := List.concat parts.

(** *** [includes], and prefix tests used by the regular expressions *)

Fixpoint stripPrefix (p s : jsstring) : option jsstring :=
  match p with
  | [] => Some s
  | a :: p' =>
      match s with
      | b :: s' => if a =? b then stripPrefix p' s' else None
      | [] => None
      end
  end.

Definition startsWith (p s : jsstring) : bool :=
  match stripPrefix p s with Some _ => true | None => false end.

(** [hay.includes(needle)]: [needle] starts at some index of [hay]. *)
Fixpoint includes (hay needle : jsstring) : bool :=
  startsWith needle hay ||
  match hay with
  | [] => false
  | _ :: hay' => includes hay' needle
  end.

(** *** [trim] *)

Fixpoint dropWhile (p : N -> bool) (s : jsstring) : jsstring :=
  match s with
  | [] => []
  | c :: s' => if p c then dropWhile p s' else s
  end.

Definition trimStart (s : jsstring) : jsstring := dropWhile isWhiteSpace s.
Definition trimEnd (s : jsstring) : jsstring :=
  List.rev (dropWhile isWhiteSpace (List.rev s)).
Definition trim (s : jsstring) : jsstring := trimEnd (trimStart s).

(** *** [replace(/\s/g, '')] *)

Definition removeWhiteSpace (s : jsstring) : jsstring :=
  List.filter (fun c => negb (isWhiteSpace c)) s.

(** *** [split(/\s+/)]

    The ECMAScript split loop with the separator [\s+]: [cur] holds (in
    reverse) the code units since the end of the last separator, [inSep]
    says that the previous code unit belonged to a separator, whose
    greedy match is still being consumed.  A separator closes the
    current piece, even an empty one; the piece after the last
    separator is always pushed, even an empty one; the empty string
    gives one empty piece. *)
Fixpoint splitWsFrom (inSep : bool) (cur : jsstring) (s : jsstring)
  : list jsstring :=
  match s with
  | [] => [List.rev cur]
  | c :: s' =>
      if isWhiteSpace c then
        if inSep then splitWsFrom true cur s'
        else List.rev cur :: splitWsFrom true [] s'
      else splitWsFrom false (c :: cur) s'
  end.

Definition splitWhiteSpace (s : jsstring) : list jsstring :=
  splitWsFrom false [] s.

(** *** [parseInt(digits, 10)] on a run of ASCII digits

    The source only calls it on the capture of [(\d+)].  A JavaScript
    number is a double; the integer computed here is the value of the
    source's number whenever it is below 2^53, which is where doubles
    stop being exact, and statements about parsed values carry that
    bound.  A parsed number leaves the service only in the result of
    [filterByNaturalLanguage], which exists only when the number is a
    32-bit integer. *)
Definition digitValue (c : N) : Z := Z.of_N (c - 48).

Definition parseInt10 (digits : jsstring) : Z :=
  List.fold_left (fun acc c => (10 * acc + digitValue c)%Z) digits 0%Z.

(** *** [toLowerCase] on ASCII

    The full Unicode case mapping is a table of the runtime; definitions
    below take the case folding as a parameter.  This is its restriction
    to strings in which only the letters A-Z have a lower-case mapping
    (all ASCII strings, and e.g. emoji). *)
Definition asciiLower (c : N) : N :=
  if (65 <=? c) && (c <=? 90) then c + 32 else c.

Definition asciiToLowerCase (s : jsstring) : jsstring := List.map asciiLower s.

(** *** Regular expressions of the source

    A backtracking matcher in continuation style: a pattern element
    takes the rest of the input and the continuation for the rest of
    the pattern; the first alternative whose continuation succeeds
    wins, as in the ECMAScript matcher. *)

(** A literal. *)
Definition lit {A} (p : jsstring) (k : jsstring -> option A) (s : jsstring)
  : option A :=
  match stripPrefix p s with
  | Some rest => k rest
  | None => None
  end.

(** Alternatives tried from left to right; [(?:x|y)?] is the list
    [x; y; empty], the greedy [?] trying its body before skipping it. *)
Fixpoint alt {A} (ps : list jsstring) (k : jsstring -> option A) (s : jsstring)
  : option A :=
  match ps with
  | [] => None
  | p :: ps' =>
      match lit p k s with
      | Some r => Some r
      | None => alt ps' k s
      end
  end.

Fixpoint takeWhile (p : N -> bool) (s : jsstring) : jsstring :=
  match s with
  | [] => []
  | c :: s' => if p c then c :: takeWhile p s' else []
  end.

(** [(\d+)] closing a pattern: the longest run of digits, at least one. *)
Definition digits1 (s : jsstring) : option jsstring :=
  match takeWhile isDigit s with
  | [] => None
  | ds => Some ds
  end.

(** [([a-z])] closing a pattern. *)
Definition lowerLetter (s : jsstring) : option jsstring :=
  match s with
  | c :: _ => if isLowerAZ c then Some [c] else None
  | [] => None
  end.

(** [str.match(re)] for a regular expression without flags: the match
    at the leftmost index that has one; the result is what the pattern
    returns there (the first capture group, for the patterns below). *)
Fixpoint search {A} (m : jsstring -> option A) (s : jsstring) : option A :=
  match m s with
  | Some r => Some r
  | None =>
      match s with
      | [] => None
      | _ :: s' => search m s'
      end
  end.

(** [/longer than (\d+)/] *)
Definition reLongerThan : jsstring -> option jsstring :=
  search (lit (js "longer than ") digits1).

(** [/shorter than (\d+)/] *)
Definition reShorterThan : jsstring -> option jsstring :=
  search (lit (js "shorter than ") digits1).

(** [/length (?:of )?(\d+)/] *)
Definition reExactLength : jsstring -> option jsstring :=
  search (lit (js "length ") (alt [js "of "; []] digits1)).

(** [/contain(?:ing|s)? (?:the )?(?:letter |character )?([a-z])/] *)
Definition reContainsLetter : jsstring -> option jsstring :=
  search
    (lit (js "contain")
      (alt [js "ing"; js "s"; []]
        (lit (js " ")
          (alt [js "the "; []]
            (alt [js "letter "; js "character "; []] lowerLetter))))).

(** *** PostgreSQL [LIKE]

    Pattern and subject are sequences of characters (code points): [%]
    matches any sequence of characters, [_] any one character, a
    backslash makes the next pattern character literal, and any other
    pattern character matches itself.  A pattern that ends in a lone
    backslash is an error in PostgreSQL; it matches nothing here. *)
Definition isPercent (c : jsstring) : bool := strEq c [37].
Definition isUnderscore (c : jsstring) : bool := strEq c [95].
Definition isBackslash (c : jsstring) : bool := strEq c [92].

Fixpoint likeChars (pat : list jsstring) : list jsstring -> bool :=
  match pat with
  | [] => fun s => match s with [] => true | _ :: _ => false end
  | c :: pat' =>
      if isPercent c then
        fix anySuffix (s : list jsstring) : bool :=
          likeChars pat' s ||
          match s with [] => false | _ :: s' => anySuffix s' end
      else if isUnderscore c then
        fun s => match s with [] => false | _ :: s' => likeChars pat' s' end
      else if isBackslash c then
        match pat' with
        | [] => fun _ => false
        | e :: pat'' =>
            fun s =>
              match s with
              | [] => false
              | x :: s' => strEq x e && likeChars pat'' s'
              end
        end
      else
        fun s =>
          match s with
          | [] => false
          | x :: s' => strEq x c && likeChars pat' s'
          end
  end.

(** [subject LIKE pattern] *)
Definition like (subject pattern : jsstring) : bool :=
  likeChars (codePoints pattern) (codePoints subject).

(** *** Text on its way to the database

    The driver sends a string as UTF-8, which has no encoding for a
    lone surrogate: each one goes out as U+FFFD (what
    [String.prototype.toWellFormed] returns).  PostgreSQL refuses text
    that holds U+0000. *)
Definition isSurrogate (c : N) : bool := isHighSurrogate c || isLowSurrogate c.

Definition toWellFormed (s : jsstring) : jsstring :=
  List.concat
    (List.map
       (fun ch =>
          match ch with
          | [c] => if isSurrogate c then [0xFFFD] else ch
          | _ => ch
          end)
       (codePoints s)).

Definition hasNul (s : jsstring) : bool := List.existsb (N.eqb 0) s.

End JS.

Import JS.

(** ** Data model *)

(** [interfaces/string-properties.interface.ts] *)
Module StringProperties.
Record t : Type := mk {
  length : Z;
  is_palindrome : bool;
  unique_characters : Z;
  word_count : Z;
  sha256_hash : jsstring;
  character_frequency_map : gmap jsstring Z
}.
End StringProperties.

(** [entities/analyzed-string.entity.ts]; [created_at] as a number. *)
Module AnalyzedString.
Record t : Type := mk {
  id : jsstring;
  value : jsstring;
  properties : StringProperties.t;
  created_at : Z
}.
End AnalyzedString.

(** [dto/filter-strings.dto.ts]: every field optional; [None] is a
    property that is not set on the object. *)
Module FilterStringsDto.
Record t : Type := mk {
  is_palindrome : option bool;
  min_length : option Z;
  max_length : option Z;
  word_count : option Z;
  contains_character : option jsstring
}.

(** [{}] *)
Definition empty : t := mk None None None None None.

(** [filters.field = v] *)
Definition set_is_palindrome (v : bool) (f : t) : t :=
  mk (Some v) (min_length f) (max_length f) (word_count f) (contains_character f).
Definition set_min_length (v : Z) (f : t) : t :=
  mk (is_palindrome f) (Some v) (max_length f) (word_count f) (contains_character f).
Definition set_max_length (v : Z) (f : t) : t :=
  mk (is_palindrome f) (min_length f) (Some v) (word_count f) (contains_character f).
Definition set_word_count (v : Z) (f : t) : t :=
  mk (is_palindrome f) (min_length f) (max_length f) (Some v) (contains_character f).
Definition set_contains_character (v : jsstring) (f : t) : t :=
  mk (is_palindrome f) (min_length f) (max_length f) (word_count f) (Some v).

Definition isSet {A} (o : option A) : nat :=
  match o with Some _ => 1%nat | None => 0%nat end.

(** [Object.keys(filters).length] *)
Definition keyCount (f : t) : nat :=
  (isSet (is_palindrome f) + isSet (min_length f) + isSet (max_length f)
   + isSet (word_count f) + isSet (contains_character f))%nat.
End FilterStringsDto.

(** ** The service: [strings.service.ts] *)

(** [x || 0] on a property read of the frequency map: [undefined] and
    [0] both give [0]. *)
Definition orZero (o : option Z) : Z :=
  match o with
  | Some n => if (n =? 0)%Z then 0%Z else n
  | None => 0%Z
  end.

(** The body of the loop filling [character_frequency_map]. *)
Definition countChar (m : gmap jsstring Z) (char : jsstring) : gmap jsstring Z :=
  <[char := (orZero (m !! char) + 1)%Z]> m.

Definition frequencyMap (chars : list jsstring) : gmap jsstring Z :=
  List.fold_left countChar chars ∅.

(** The sum of the values of a frequency map. *)
Definition sumValues (m : gmap jsstring Z) : Z :=
  map_fold (fun _ v acc => (v + acc)%Z) 0%Z m.

Section Service.

(** Supplied by the runtime: [String.prototype.toLowerCase] and
    [createHash('sha256').update(value).digest('hex')]. *)
Variable toLowerCase : jsstring -> jsstring.
Variable sha256Hex : jsstring -> jsstring.

Definition computeProperties (value : jsstring) : StringProperties.t :=
  let length := jsLength value in
  let normalizedValue := removeWhiteSpace (toLowerCase value) in
  let reversedValue := join (List.rev (splitEmpty normalizedValue)) in
  let is_palindrome := strEq normalizedValue reversedValue in
  let unique_characters :=
    Z.of_nat (size (list_to_set (codePoints value) : gset jsstring)) in
  let words :=
    List.filter (fun word => (0 <? jsLength word)%Z)
                (splitWhiteSpace (trim value)) in
  let word_count := Z.of_nat (List.length words) in
  let sha256_hash := sha256Hex value in
  let character_frequency_map := frequencyMap (codePoints value) in
  StringProperties.mk length is_palindrome unique_characters word_count
                      sha256_hash character_frequency_map.

(** *** Exceptions

    What a method throws: one of the HTTP exceptions the source
    raises, or TypeORM's [QueryFailedError] for a statement that
    PostgreSQL refused, which the source lets through. *)
Inductive HttpException : Type :=
  | ConflictException
  | NotFoundException
  | BadRequestException.

Inductive Exception : Type :=
  | Http (e : HttpException)
  | QueryFailedError.

(** *** [findAll]

    The query builder collects the [andWhere] conditions; a row is
    returned when all of them hold.  Each condition is the SQL text of
    the source read on one row: [(properties->>'length')::int] is the
    stored [length], and so on. *)
Definition Condition : Type := AnalyzedString.t -> bool.

Definition andWhere (c : Condition) (query : list Condition) : list Condition :=
  query ++ [c].

Definition props (r : AnalyzedString.t) : StringProperties.t :=
  AnalyzedString.properties r.

(** JavaScript truthiness of a string: non-empty. *)
Definition truthy (s : jsstring) : bool :=
  match s with [] => false | _ :: _ => true end.

Definition findAllQuery (filters : FilterStringsDto.t) : list Condition :=
  let query : list Condition := [] in
  let query :=
    match FilterStringsDto.is_palindrome filters with
    | Some is_palindrome =>
        andWhere (fun r => Bool.eqb (StringProperties.is_palindrome (props r))
                                    is_palindrome) query
    | None => query
    end in
  let query :=
    match FilterStringsDto.min_length filters with
    | Some min_length =>
        andWhere (fun r => (min_length <=? StringProperties.length (props r))%Z)
                 query
    | None => query
    end in
  let query :=
    match FilterStringsDto.max_length filters with
    | Some max_length =>
        andWhere (fun r => (StringProperties.length (props r) <=? max_length)%Z)
                 query
    | None => query
    end in
  let query :=
    match FilterStringsDto.word_count filters with
    | Some word_count =>
        andWhere (fun r => (StringProperties.word_count (props r) =? word_count)%Z)
                 query
    | None => query
    end in
  let query :=
    match FilterStringsDto.contains_character filters with
    | Some contains_character =>
        if truthy contains_character then
          andWhere (fun r => like (AnalyzedString.value r)
                                  (js "%" ++ contains_character ++ js "%"))
                   query
        else query
    | None => query
    end in
  query.

(** A row passes the [WHERE] clause. *)
Definition rowSatisfies (query : list Condition) (r : AnalyzedString.t) : bool :=
  List.forallb (fun c => c r) query.

(** [ORDER BY created_at DESC], keeping the store's order among equal
    timestamps. *)
Fixpoint insertDesc (r : AnalyzedString.t) (rows : list AnalyzedString.t)
  : list AnalyzedString.t :=
  match rows with
  | [] => [r]
  | x :: rows' =>
      if (AnalyzedString.created_at x <=? AnalyzedString.created_at r)%Z
      then r :: rows
      else x :: insertDesc r rows'
  end.

Definition orderByCreatedAtDesc (rows : list AnalyzedString.t)
  : list AnalyzedString.t :=
  List.fold_right insertDesc [] rows.

Definition getMany (store : list AnalyzedString.t) (query : list Condition)
  : list AnalyzedString.t :=
  orderByCreatedAtDesc (List.filter (rowSatisfies query) store).

Record FindAllResult : Type := mkFindAllResult {
  data : list AnalyzedString.t;
  count : Z;
  filters_applied : FilterStringsDto.t
}.

(** The parameters bound to the query.  A number is compared with a
    [(...)::int] expression, so PostgreSQL reads it as a 32-bit integer
    and refuses the statement when it is out of that range; the [LIKE]
    pattern is text, refused when it holds U+0000. *)
Definition int4 (n : Z) : bool :=
  (-2147483648 <=? n)%Z && (n <=? 2147483647)%Z.

Definition bindsInt (o : option Z) : bool :=
  match o with Some n => int4 n | None => true end.

Definition bindsPattern (o : option jsstring) : bool :=
  match o with
  | Some contains_character =>
      if truthy contains_character then negb (hasNul contains_character)
      else true
  | None => true
  end.

Definition parametersAccepted (filters : FilterStringsDto.t) : bool :=
  bindsInt (FilterStringsDto.min_length filters)
  && bindsInt (FilterStringsDto.max_length filters)
  && bindsInt (FilterStringsDto.word_count filters)
  && bindsPattern (FilterStringsDto.contains_character filters).

(** [await query.orderBy(...).getMany()] throws when a parameter is
    refused, and [findAll] does not catch it. *)
Definition findAll (store : list AnalyzedString.t) (filters : FilterStringsDto.t)
  : Exception + FindAllResult :=
  let query := findAllQuery filters in
  if parametersAccepted filters then
    let data := getMany store query in
    inr (mkFindAllResult data (Z.of_nat (List.length data)) filters)
  else inl QueryFailedError.

(** The matcher: the predicate [findAll] applies to every stored record. *)
Definition matches (r : AnalyzedString.t) (filters : FilterStringsDto.t) : bool :=
  rowSatisfies (findAllQuery filters) r.

(** *** [parseNaturalLanguageQuery] *)

Definition vowels : list jsstring := [js "a"; js "e"; js "i"; js "o"; js "u"].

(** The [for ... of vowels] loop with its [break]. *)
Fixpoint scanVowels (lowerQuery : jsstring) (vs : list jsstring)
                    (filters : FilterStringsDto.t) : FilterStringsDto.t :=
  match vs with
  | [] => filters
  | vowel :: vs' =>
      if includes lowerQuery vowel
      then FilterStringsDto.set_contains_character vowel filters
      else scanVowels lowerQuery vs' filters
  end.

Definition parseNaturalLanguageQuery (query : jsstring) : FilterStringsDto.t :=
  let filters := FilterStringsDto.empty in
  let lowerQuery := toLowerCase query in
  (* Detect palindrome queries *)
  let filters :=
    if includes lowerQuery (js "palindrom")
       || includes lowerQuery (js "reads same forwards and backwards")
    then FilterStringsDto.set_is_palindrome true filters
    else filters in
  (* Detect word count *)
  let filters :=
    if includes lowerQuery (js "single word")
       || includes lowerQuery (js "one word")
    then FilterStringsDto.set_word_count 1 filters
    else if includes lowerQuery (js "two word")
            || includes lowerQuery (js "2 word")
    then FilterStringsDto.set_word_count 2 filters
    else if includes lowerQuery (js "three word")
            || includes lowerQuery (js "3 word")
    then FilterStringsDto.set_word_count 3 filters
    else filters in
  (* "longer than X" *)
  let filters :=
    match reLongerThan lowerQuery with
    | Some n => FilterStringsDto.set_min_length (parseInt10 n + 1) filters
    | None => filters
    end in
  (* "shorter than X" *)
  let filters :=
    match reShorterThan lowerQuery with
    | Some n => FilterStringsDto.set_max_length (parseInt10 n - 1) filters
    | None => filters
    end in
  (* "length of X" *)
  let filters :=
    match reExactLength lowerQuery with
    | Some n =>
        let len := parseInt10 n in
        FilterStringsDto.set_max_length len
          (FilterStringsDto.set_min_length len filters)
    | None => filters
    end in
  (* "containing letter X" or "contain X" *)
  let filters :=
    match reContainsLetter lowerQuery with
    | Some c => FilterStringsDto.set_contains_character c filters
    | None => filters
    end in
  (* "first vowel" means 'a' *)
  let filters :=
    if includes lowerQuery (js "first vowel")
    then FilterStringsDto.set_contains_character (js "a") filters
    else filters in
  (* specific vowels mentioned *)
  let filters :=
    if includes lowerQuery (js "vowel")
    then scanVowels lowerQuery vowels filters
    else filters in
  filters.

(** *** [filterByNaturalLanguage] *)

Record NaturalLanguageResult : Type := mkNaturalLanguageResult {
  nl_data : list AnalyzedString.t;
  nl_count : Z;
  original : jsstring;
  parsed_filters : FilterStringsDto.t
}.

Definition filterByNaturalLanguage (store : list AnalyzedString.t)
                                   (queryText : jsstring)
  : Exception + NaturalLanguageResult :=
  let filters := parseNaturalLanguageQuery queryText in
  if Nat.eqb (FilterStringsDto.keyCount filters) 0 then
    inl (Http BadRequestException)
  else
    match findAll store filters with
    | inl e => inl e
    | inr result =>
        inr (mkNaturalLanguageResult (data result) (count result)
                                     queryText filters)
    end.

End Service.

(** ** The repository and the methods that use it

    The table [analyzed_strings] is the list of its rows in insertion
    order, with primary key [id] and a unique constraint on [value]; it
    is used by one request at a time.  The TypeORM calls are the
    statements they issue: [findOne({ where: { value } })] selects the
    row with that value; [save] looks the primary key up and inserts a
    new row (the database fills [created_at]) or updates the columns of
    the existing one; [delete({ value })] deletes by value and reports
    the number of rows affected.  Each of them throws
    [QueryFailedError] when PostgreSQL refuses the statement. *)

(** [dto/create-string.dto.ts] *)
Module CreateStringDto.
Record t : Type := mk { value : jsstring }.
End CreateStringDto.

Module StringsService.

(** What [save] hands back: after an insert the entity carries the
    generated [created_at]; after an update it is the entity as passed,
    without one. *)
Inductive Saved : Type :=
  | Inserted (row : AnalyzedString.t)
  | Updated (id value : jsstring) (properties : StringProperties.t).

Definition hasValue (value : jsstring) (r : AnalyzedString.t) : bool :=
  strEq (AnalyzedString.value r) value.

Definition hasId (id : jsstring) (r : AnalyzedString.t) : bool :=
  strEq (AnalyzedString.id r) id.

(** A text parameter as PostgreSQL receives it, if it takes it. *)
Definition textParameter (s : jsstring) : Exception + jsstring :=
  let sent := toWellFormed s in
  if hasNul sent then inl QueryFailedError else inr sent.

(** [SELECT ... WHERE value = $1 LIMIT 1] on a text it took. *)
Definition lookup (store : list AnalyzedString.t) (sent : jsstring)
  : option AnalyzedString.t :=
  List.find (hasValue sent) store.

Definition findOne (store : list AnalyzedString.t) (value : jsstring)
  : Exception + option AnalyzedString.t :=
  match textParameter value with
  | inl e => inl e
  | inr sent => inr (lookup store sent)
  end.

Section Methods.

Variable toLowerCase : jsstring -> jsstring.
Variable sha256Hex : jsstring -> jsstring.

(** Whether PostgreSQL takes a row with this value: the entry of a
    long value may not fit the unique index on [value]. *)
Variable storable : jsstring -> bool.

(** [save(entity)] at time [now].  The statement is refused when the
    value holds U+0000, when it holds a lone surrogate (the surrogate
    is a key of [character_frequency_map], and [jsonb] does not take
    it), when the database does not take the row, and when another row
    already has the value.  Otherwise it is an update when a row has
    the primary key, and an insert at the end of the table when none
    has. *)
Definition save (store : list AnalyzedString.t)
                (id value : jsstring) (properties : StringProperties.t)
                (now : Z)
  : Exception + (list AnalyzedString.t * Saved) :=
  if hasNul value
     || negb (strEq (toWellFormed value) value)
     || negb (storable value)
  then inl QueryFailedError
  else if List.existsb (fun r => negb (hasId id r) && hasValue value r) store
  then inl QueryFailedError
  else if List.existsb (hasId id) store then
    inr (List.map
           (fun r =>
              if hasId id r
              then AnalyzedString.mk id value properties
                                     (AnalyzedString.created_at r)
              else r)
           store,
         Updated id value properties)
  else
    let row := AnalyzedString.mk id value properties now in
    inr (store ++ [row], Inserted row).

Definition create (store : list AnalyzedString.t) (now : Z)
                  (createStringDto : CreateStringDto.t)
  : Exception + (list AnalyzedString.t * Saved) :=
  let value := CreateStringDto.value createStringDto in
  match findOne store value with
  | inl e => inl e
  | inr (Some existing) => inl (Http ConflictException)
  | inr None =>
      let properties := computeProperties toLowerCase sha256Hex value in
      save store (StringProperties.sha256_hash properties) value properties now
  end.

Definition findByValue (store : list AnalyzedString.t) (value : jsstring)
  : Exception + AnalyzedString.t :=
  match findOne store value with
  | inl e => inl e
  | inr None => inl (Http NotFoundException)
  | inr (Some analyzedString) => inr analyzedString
  end.

Definition delete (store : list AnalyzedString.t) (value : jsstring)
  : Exception + list AnalyzedString.t :=
  match textParameter value with
  | inl e => inl e
  | inr sent =>
      let affected := List.length (List.filter (hasValue sent) store) in
      if Nat.eqb affected 0 then inl (Http NotFoundException)
      else inr (List.filter (fun r => negb (hasValue sent r)) store)
  end.

End Methods.

End StringsService.

(** ** Vocabulary of the specification *)

(** The maximal whitespace-delimited non-empty tokens of a string:
    [cur] collects (in reverse) the token being read. *)
Fixpoint tokensFrom (cur : jsstring) (s : jsstring) : list jsstring :=
  match s with
  | [] => match cur with [] => [] | _ :: _ => [List.rev cur] end
  | c :: s' =>
      if isWhiteSpace c then
        match cur with
        | [] => tokensFrom [] s'
        | _ :: _ => List.rev cur :: tokensFrom [] s'
        end
      else tokensFrom (c :: cur) s'
  end.

Definition tokens (s : jsstring) : list jsstring := tokensFrom [] s.

(** [merge(f1, f2)]: the filter that has the fields of both. *)
Definition orElse {A} (a b : option A) : option A :=
  match a with Some _ => a | None => b end.

Definition merge (f1 f2 : FilterStringsDto.t) : FilterStringsDto.t :=
  FilterStringsDto.mk
    (orElse (FilterStringsDto.is_palindrome f1) (FilterStringsDto.is_palindrome f2))
    (orElse (FilterStringsDto.min_length f1) (FilterStringsDto.min_length f2))
    (orElse (FilterStringsDto.max_length f1) (FilterStringsDto.max_length f2))
    (orElse (FilterStringsDto.word_count f1) (FilterStringsDto.word_count f2))
    (orElse (FilterStringsDto.contains_character f1)
            (FilterStringsDto.contains_character f2)).

(** A filter field that is not set holds of every record. *)
Definition fieldOk {A} (o : option A) (test : A -> bool) : bool :=
  match o with Some v => test v | None => true end.

(** No field is present in both filters. *)
Definition notBoth {A B} (a : option A) (b : option B) : Prop :=
  a = None \/ b = None.

Definition disjointFields (f1 f2 : FilterStringsDto.t) : Prop :=
  notBoth (FilterStringsDto.is_palindrome f1) (FilterStringsDto.is_palindrome f2)
  /\ notBoth (FilterStringsDto.min_length f1) (FilterStringsDto.min_length f2)
  /\ notBoth (FilterStringsDto.max_length f1) (FilterStringsDto.max_length f2)
  /\ notBoth (FilterStringsDto.word_count f1) (FilterStringsDto.word_count f2)
  /\ notBoth (FilterStringsDto.contains_character f1)
             (FilterStringsDto.contains_character f2).

(** The first of a, e, i, o, u that occurs in a text. *)
Definition firstVowelIn (text : jsstring) : option jsstring :=
  List.find (fun vowel => includes text vowel) vowels.

Definition isSome {A} (o : option A) : bool :=
  match o with Some _ => true | None => false end.

(** Some rule of the interpreter fires on the folded query text. *)
Definition ruleFires (lowerQuery : jsstring) : bool :=
  includes lowerQuery (js "palindrom")
  || includes lowerQuery (js "reads same forwards and backwards")
  || includes lowerQuery (js "single word")
  || includes lowerQuery (js "one word")
  || includes lowerQuery (js "two word")
  || includes lowerQuery (js "2 word")
  || includes lowerQuery (js "three word")
  || includes lowerQuery (js "3 word")
  || isSome (reLongerThan lowerQuery)
  || isSome (reShorterThan lowerQuery)
  || isSome (reExactLength lowerQuery)
  || isSome (reContainsLetter lowerQuery)
  || includes lowerQuery (js "first vowel")
  || includes lowerQuery (js "vowel").

(** How often a character occurs among the iterated characters. *)
Definition occurrences (ch : jsstring) (chars : list jsstring) : nat :=
  List.length (List.filter (strEq ch) chars).

(** The values stored in the table. *)
Definition storedValues (store : list AnalyzedString.t) : list jsstring :=
  List.map AnalyzedString.value store.

(** A row as [create] writes it. *)
Definition analyzedRow (toLowerCase sha256Hex : jsstring -> jsstring)
                       (r : AnalyzedString.t) : Prop :=
  AnalyzedString.properties r
  = computeProperties toLowerCase sha256Hex (AnalyzedString.value r)
  /\ AnalyzedString.id r = sha256Hex (AnalyzedString.value r).

(** The constraints of the table, and every row written by [create]. *)
Definition consistentStore (toLowerCase sha256Hex : jsstring -> jsstring)
                           (store : list AnalyzedString.t) : Prop :=
  List.NoDup (storedValues store)
  /\ List.NoDup (List.map AnalyzedString.id store)
  /\ List.Forall (analyzedRow toLowerCase sha256Hex) store.

(** PostgreSQL takes a row with this value: no U+0000, no lone
    surrogate, and the database's own limits. *)
Definition takesRow (storable : jsstring -> bool) (value : jsstring) : bool :=
  negb (hasNul value) && strEq (toWellFormed value) value && storable value.

(** The database with no limit of its own, for closed examples. *)
Definition noLimit : jsstring -> bool := fun _ => true.

(** Most recent first. *)
Definition newerOrEqual (a b : AnalyzedString.t) : Prop :=
  (AnalyzedString.created_at b <= AnalyzedString.created_at a)%Z.

(** A stand-in for the digest in closed examples; no statement below
    depends on the hash. *)
Definition noDigest : jsstring -> jsstring := fun _ => [].

(** U+1F600, one character, two code units. *)
Definition grinningFace : jsstring := [0xD83D; 0xDE00].

(** * Properties *)

(** ** The frequency map *)

Lemma orZero_Some n : orZero (Some n) = n.
Proof. unfold orZero. destruct (Z.eqb_spec n 0); congruence. Qed.

Lemma sumValues_insert_fresh (m : gmap jsstring Z) k v :
  m !! k = None -> sumValues (<[k := v]> m) = (v + sumValues m)%Z.
Proof.
  intros Hk. unfold sumValues.
  rewrite map_fold_insert_L; [reflexivity | intros; lia | exact Hk].
Qed.

Lemma sumValues_lookup (m : gmap jsstring Z) k v :
  m !! k = Some v -> sumValues m = (v + sumValues (delete k m))%Z.
Proof.
  intros Hk. unfold sumValues.
  rewrite (map_fold_delete_L _ _ k v m); [reflexivity | intros; lia | exact Hk].
Qed.

Lemma sumValues_countChar (m : gmap jsstring Z) ch :
  sumValues (countChar m ch) = (sumValues m + 1)%Z.
Proof.
  unfold countChar. destruct (m !! ch) as [n|] eqn:Hch.
  - rewrite orZero_Some, <- insert_delete_eq.
    rewrite sumValues_insert_fresh by apply lookup_delete_eq.
    rewrite (sumValues_lookup m ch n Hch). lia.
  - rewrite sumValues_insert_fresh by exact Hch. simpl. lia.
Qed.

Lemma sumValues_fold chars : forall m : gmap jsstring Z,
  sumValues (List.fold_left countChar chars m)
  = (sumValues m + Z.of_nat (List.length chars))%Z.
Proof.
  induction chars as [|ch chars IH]; intros m; simpl List.fold_left.
  - simpl. lia.
  - rewrite IH, sumValues_countChar. simpl List.length. lia.
Qed.

(** The values of the frequency map add up to the number of iterated
    characters (code points). *)
Lemma sumValues_frequencyMap chars :
  sumValues (frequencyMap chars) = Z.of_nat (List.length chars).
Proof.
  unfold frequencyMap. rewrite sumValues_fold.
  unfold sumValues. rewrite map_fold_empty. lia.
Qed.

(** Iteration never yields more characters than there are code units. *)
Lemma codePoints_length_le s :
  (List.length (codePoints s) <= List.length s)%nat.
Proof.
  enough (H : forall n s, (List.length s <= n)%nat ->
            (List.length (codePoints s) <= List.length s)%nat)
    by (apply (H (List.length s)); lia).
  clear s. induction n as [|n IH]; intros [|c [|d rest]] Hn; simpl in *; try lia.
  destruct (isHighSurrogate c && isLowSurrogate d); simpl.
  - specialize (IH rest). lia.
  - specialize (IH (d :: rest)). simpl in IH. lia.
Qed.

(** Without surrogates, characters and code units coincide. *)
Lemma codePoints_no_high s :
  List.forallb (fun c => negb (isHighSurrogate c)) s = true ->
  codePoints s = List.map (fun c => [c]) s.
Proof.
  induction s as [|c [|d rest] IH]; intros H; try reflexivity.
  change (codePoints (c :: d :: rest))
    with (if isHighSurrogate c && isLowSurrogate d
          then [c; d] :: codePoints rest else [c] :: codePoints (d :: rest)).
  simpl in H. apply andb_true_iff in H as [Hc H].
  apply negb_true_iff in Hc. rewrite Hc. simpl andb. cbv iota.
  rewrite IH by exact H. reflexivity.
Qed.

(** ** Strings *)

Lemma strEq_spec a : forall b, strEq a b = true <-> a = b.
Proof.
  induction a as [|x a IH]; intros [|y b]; simpl; split; intros H;
    try reflexivity; try discriminate.
  - apply andb_true_iff in H as [Hx Hab].
    apply N.eqb_eq in Hx. apply IH in Hab. congruence.
  - injection H as -> ->. rewrite N.eqb_refl. simpl. apply IH. reflexivity.
Qed.

(** [split('').reverse().join('')] reverses the code units. *)
Lemma join_reverse_splitEmpty s :
  join (List.rev (splitEmpty s)) = List.rev s.
Proof.
  unfold join, splitEmpty. induction s as [|c s IH]; [reflexivity|].
  simpl. rewrite List.concat_app, IH. simpl. reflexivity.
Qed.

(** ** Words *)

Lemma nonEmpty_rev (cur : jsstring) :
  (0 <? jsLength (List.rev cur))%Z = match cur with [] => false | _ :: _ => true end.
Proof.
  unfold jsLength. rewrite List.length_rev. destruct cur; simpl; [reflexivity|].
  apply Z.ltb_lt. lia.
Qed.

(** Dropping the empty pieces of [split(/\s+/)] leaves the tokens. *)
Lemma filter_splitWsFrom s : forall inSep cur,
  (inSep = true -> cur = []) ->
  List.filter (fun word => (0 <? jsLength word)%Z) (splitWsFrom inSep cur s)
  = tokensFrom cur s.
Proof.
  induction s as [|c s IH]; intros inSep cur Hsep; simpl.
  - rewrite nonEmpty_rev. destruct cur; reflexivity.
  - destruct (isWhiteSpace c).
    + destruct inSep.
      * rewrite (Hsep eq_refl). apply IH. reflexivity.
      * simpl. rewrite nonEmpty_rev, IH by reflexivity.
        destruct cur; reflexivity.
    + apply IH. discriminate.
Qed.

Lemma tokensFrom_app_ws a : forall cur w b,
  isWhiteSpace w = true ->
  tokensFrom cur (a ++ w :: b) = tokensFrom cur a ++ tokens b.
Proof.
  induction a as [|c a IH]; intros cur w b Hw; simpl.
  - rewrite Hw. destruct cur; reflexivity.
  - destruct (isWhiteSpace c).
    + destruct cur; simpl; rewrite IH by exact Hw; reflexivity.
    + apply IH. exact Hw.
Qed.

Lemma tokensFrom_no_ws t : forall cur,
  List.forallb (fun c => negb (isWhiteSpace c)) t = true ->
  tokensFrom cur t
  = match List.rev cur ++ t with [] => [] | _ :: _ => [List.rev cur ++ t] end.
Proof.
  induction t as [|c t IH]; intros cur Ht; simpl.
  - rewrite List.app_nil_r. destruct cur as [|x cur]; [reflexivity|].
    simpl. destruct (List.rev cur ++ [x]) eqn:E; [|reflexivity].
    destruct (List.rev cur); discriminate.
  - simpl in Ht. apply andb_true_iff in Ht as [Hc Ht].
    apply negb_true_iff in Hc. rewrite Hc, IH by exact Ht.
    simpl. rewrite <- List.app_assoc. reflexivity.
Qed.

(** The three equations that pin [tokens] down: nothing in the empty
    string, a non-empty whitespace-free string is its own single token,
    and a whitespace code unit separates the tokens on its two sides. *)
Lemma tokens_nil : tokens [] = [].
Proof. reflexivity. Qed.

Lemma tokens_word t :
  t <> [] ->
  List.forallb (fun c => negb (isWhiteSpace c)) t = true ->
  tokens t = [t].
Proof.
  intros Hne Ht. unfold tokens. rewrite tokensFrom_no_ws by exact Ht.
  simpl. destruct t; congruence.
Qed.

Lemma tokens_app_ws a w b :
  isWhiteSpace w = true -> tokens (a ++ w :: b) = tokens a ++ tokens b.
Proof. apply tokensFrom_app_ws. Qed.

Lemma tokens_trimStart s : tokens (trimStart s) = tokens s.
Proof.
  unfold tokens, trimStart. induction s as [|c s IH]; [reflexivity|].
  simpl. destruct (isWhiteSpace c) eqn:Hc; [exact IH|].
  simpl. rewrite Hc. reflexivity.
Qed.

Lemma tokens_snoc_ws s w :
  isWhiteSpace w = true -> tokens (s ++ [w]) = tokens s.
Proof.
  intros Hw. rewrite tokens_app_ws by exact Hw.
  rewrite tokens_nil. apply List.app_nil_r.
Qed.

Lemma tokens_trimEnd s : tokens (trimEnd s) = tokens s.
Proof.
  unfold trimEnd. rewrite <- (List.rev_involutive s) at 2.
  induction (List.rev s) as [|c t IH]; [reflexivity|].
  simpl. destruct (isWhiteSpace c) eqn:Hc.
  - rewrite tokens_snoc_ws by exact Hc. exact IH.
  - reflexivity.
Qed.

Lemma tokens_trim s : tokens (trim s) = tokens s.
Proof. unfold trim. rewrite tokens_trimEnd. apply tokens_trimStart. Qed.

Lemma tokens_all_ws s :
  List.forallb isWhiteSpace s = true -> tokens s = [].
Proof.
  unfold tokens. induction s as [|c s IH]; intros H; [reflexivity|].
  simpl in *. apply andb_true_iff in H as [Hc H]. rewrite Hc. apply IH, H.
Qed.

Section ComputeProperties.

Variable toLowerCase : jsstring -> jsstring.
Variable sha256Hex : jsstring -> jsstring.

Local Abbreviation compute := (computeProperties toLowerCase sha256Hex).

(** What the frequency map always adds up to: the number of code
    points of the value. *)
Lemma frequency_sum_counts_code_points value :
  sumValues (StringProperties.character_frequency_map (compute value))
  = Z.of_nat (List.length (codePoints value)).
Proof. apply sumValues_frequencyMap. Qed.

(** X3: On a value without high surrogates (every string of the Basic
    Multilingual Plane) the sum is the [length]. *)
Lemma frequency_sum_is_length_without_surrogates value :
  List.forallb (fun c => negb (isHighSurrogate c)) value = true ->
  sumValues (StringProperties.character_frequency_map (compute value))
  = StringProperties.length (compute value).
Proof.
  intros H. rewrite frequency_sum_counts_code_points.
  rewrite (codePoints_no_high value H), List.length_map. reflexivity.
Qed.

(** C1 (the sum of the frequency map equals [length]) fails in the
    code: on the one-character string U+1F600 the [length] is 2, counted
    in code units, while the frequency map, filled by iterating code
    points, holds the single entry of count 1. *)
Theorem frequency_sum_astral_mismatch :
  StringProperties.length (compute grinningFace) = 2%Z
  /\ StringProperties.character_frequency_map (compute grinningFace)
     = {[ grinningFace := 1%Z ]}
  /\ sumValues (StringProperties.character_frequency_map (compute grinningFace))
     = 1%Z.
Proof.
  split; [reflexivity | split].
  - reflexivity.
  - rewrite frequency_sum_counts_code_points. reflexivity.
Qed.

(** What [is_palindrome] computes: whether the value, folded to lower
    case and with every whitespace code unit removed, equals the
    reverse of its sequence of code units; "racecar" and "A man a plan
    a canal Panama" pass and "hello" does not. *)
Lemma is_palindrome_iff_normalized_reverse :
  (forall value,
     StringProperties.is_palindrome (compute value) = true
     <-> removeWhiteSpace (toLowerCase value)
         = List.rev (removeWhiteSpace (toLowerCase value)))
  /\ StringProperties.is_palindrome
       (computeProperties asciiToLowerCase sha256Hex (js "racecar")) = true
  /\ StringProperties.is_palindrome
       (computeProperties asciiToLowerCase sha256Hex
          (js "A man a plan a canal Panama")) = true
  /\ StringProperties.is_palindrome
       (computeProperties asciiToLowerCase sha256Hex (js "hello")) = false.
Proof.
  split; [|repeat split; reflexivity].
  intros value. unfold computeProperties. simpl.
  rewrite join_reverse_splitEmpty. apply strEq_spec.
Qed.

(** [word_count] on any value, in the vocabulary of the specification. *)
Lemma word_count_tokens value :
  StringProperties.word_count (compute value)
  = Z.of_nat (List.length (tokens (trim value))).
Proof.
  unfold computeProperties. simpl. unfold splitWhiteSpace.
  rewrite filter_splitWsFrom by discriminate. reflexivity.
Qed.

(** C10: [word_count] is the number of maximal whitespace-delimited
    non-empty tokens of the trimmed value (which are those of the value
    itself); it is 0 on the empty string and on a value made of
    whitespace only, and 3 on "a  b   c". *)
Theorem word_count_counts_tokens :
  (forall value,
     StringProperties.word_count (compute value)
     = Z.of_nat (List.length (tokens (trim value)))
     /\ tokens (trim value) = tokens value)
  /\ (forall value,
        List.forallb isWhiteSpace value = true ->
        StringProperties.word_count (compute value) = 0%Z)
  /\ StringProperties.word_count (compute (js "")) = 0%Z
  /\ StringProperties.word_count (compute (js "   ")) = 0%Z
  /\ StringProperties.word_count (compute (js "a  b   c")) = 3%Z.
Proof.
  split; [|split; [|repeat split; reflexivity]].
  - intros value. split; [apply word_count_tokens | apply tokens_trim].
  - intros value H.
    rewrite word_count_tokens, tokens_trim, (tokens_all_ws value H).
    reflexivity.
Qed.

End ComputeProperties.

(** C8 ([is_palindrome] is true exactly when the folded value without
    whitespace equals its own reverse) fails in the code: the string
    made of the single character U+1F600 reads the same in both
    directions, but [split('')] cuts it into its two code units and
    [reverse] swaps them, so [is_palindrome] is false. *)
Theorem is_palindrome_splits_astral_character :
  forall sha256Hex,
    let normalized := removeWhiteSpace (asciiToLowerCase grinningFace) in
    codePoints normalized = [grinningFace]
    /\ List.rev (codePoints normalized) = codePoints normalized
    /\ StringProperties.is_palindrome
         (computeProperties asciiToLowerCase sha256Hex grinningFace) = false.
Proof. intros sha256Hex. repeat split. Qed.

(** C10 at a value of whitespace only (tab, space, no-break space). *)
Lemma word_count_counts_tokens_witness :
  StringProperties.word_count
    (computeProperties asciiToLowerCase noDigest [9; 0x20; 0xA0]) = 0%Z.
Proof.
  apply (proj1 (proj2 (word_count_counts_tokens asciiToLowerCase noDigest))).
  reflexivity.
Defined.

(** ** The matcher *)

(** [findAll]'s [WHERE] clause, field by field. *)
Lemma matches_fields r f :
  matches r f
  = fieldOk (FilterStringsDto.is_palindrome f)
      (fun v => Bool.eqb (StringProperties.is_palindrome (props r)) v)
    && fieldOk (FilterStringsDto.min_length f)
         (fun v => (v <=? StringProperties.length (props r))%Z)
    && fieldOk (FilterStringsDto.max_length f)
         (fun v => (StringProperties.length (props r) <=? v)%Z)
    && fieldOk (FilterStringsDto.word_count f)
         (fun v => (StringProperties.word_count (props r) =? v)%Z)
    && fieldOk (FilterStringsDto.contains_character f)
         (fun c => negb (truthy c)
                   || like (AnalyzedString.value r) (js "%" ++ c ++ js "%")).
Proof.
  destruct f as [[p|] [mn|] [mx|] [wc|] [[|c0 c]|]];
    unfold matches, findAllQuery, rowSatisfies, andWhere; simpl;
    rewrite ?andb_true_r, ?andb_assoc; reflexivity.
Qed.

Lemma fieldOk_orElse {A} (a b : option A) test :
  notBoth a b ->
  fieldOk (orElse a b) test = fieldOk a test && fieldOk b test.
Proof.
  intros [-> | ->]; simpl; [reflexivity|].
  destruct a; simpl; [rewrite andb_true_r|]; reflexivity.
Qed.

(** C7: the matcher is the conjunction of one condition per field,
    the condition of a field that is present being its test on the
    record and that of an absent field being true; so the empty filter
    matches every record, and on filters with no field in common,
    matching the merged filter is matching both. *)
Theorem matches_conjunctive :
  (forall r f,
     matches r f
     = fieldOk (FilterStringsDto.is_palindrome f)
         (fun v => Bool.eqb (StringProperties.is_palindrome (props r)) v)
       && fieldOk (FilterStringsDto.min_length f)
            (fun v => (v <=? StringProperties.length (props r))%Z)
       && fieldOk (FilterStringsDto.max_length f)
            (fun v => (StringProperties.length (props r) <=? v)%Z)
       && fieldOk (FilterStringsDto.word_count f)
            (fun v => (StringProperties.word_count (props r) =? v)%Z)
       && fieldOk (FilterStringsDto.contains_character f)
            (fun c => negb (truthy c)
                      || like (AnalyzedString.value r)
                              (js "%" ++ c ++ js "%")))
  /\ (forall r, matches r FilterStringsDto.empty = true)
  /\ (forall r f1 f2,
        disjointFields f1 f2 ->
        matches r (merge f1 f2) = matches r f1 && matches r f2).
Proof.
  split; [intros r f; apply matches_fields|].
  split; [reflexivity|].
  intros r f1 f2 (Hp & Hmn & Hmx & Hwc & Hcc).
  rewrite !matches_fields. unfold merge. simpl.
  rewrite (fieldOk_orElse _ _ _ Hp), (fieldOk_orElse _ _ _ Hmn),
          (fieldOk_orElse _ _ _ Hmx), (fieldOk_orElse _ _ _ Hwc),
          (fieldOk_orElse _ _ _ Hcc).
  repeat match goal with
         | |- context [fieldOk ?o ?t] =>
             let b := fresh "b" in set (b := fieldOk o t); clearbody b
         end.
  repeat match goal with b : bool |- _ => destruct b end; reflexivity.
Qed.

(** C7 on "palindromes" merged with "at least three long", at the
    record of "abc". *)
Lemma matches_conjunctive_witness :
  let r := AnalyzedString.mk (noDigest (js "abc")) (js "abc")
             (computeProperties asciiToLowerCase noDigest (js "abc")) 0 in
  let f1 := FilterStringsDto.set_is_palindrome true FilterStringsDto.empty in
  let f2 := FilterStringsDto.set_min_length 3 FilterStringsDto.empty in
  matches r (merge f1 f2) = matches r f1 && matches r f2.
Proof.
  intros r f1 f2. apply (proj2 (proj2 matches_conjunctive) r f1 f2).
  unfold disjointFields, notBoth. simpl.
  repeat split; (left; reflexivity) || (right; reflexivity).
Defined.

(** [findAll] runs exactly when its parameters are accepted, and then
    returns the stored records that match, most recent first, and their
    number. *)
Lemma findAll_accepted store filters :
  parametersAccepted filters = true ->
  findAll store filters
  = inr (mkFindAllResult
           (orderByCreatedAtDesc
              (List.filter (fun r => matches r filters) store))
           (Z.of_nat
              (List.length
                 (orderByCreatedAtDesc
                    (List.filter (fun r => matches r filters) store))))
           filters).
Proof. intros H. unfold findAll. rewrite H. reflexivity. Qed.

Lemma findAll_refused store filters :
  parametersAccepted filters = false ->
  findAll store filters = inl QueryFailedError.
Proof. intros H. unfold findAll. rewrite H. reflexivity. Qed.

Lemma findAll_inr store filters result :
  findAll store filters = inr result ->
  parametersAccepted filters = true
  /\ data result
     = orderByCreatedAtDesc (List.filter (fun r => matches r filters) store)
  /\ count result = Z.of_nat (List.length (data result))
  /\ filters_applied result = filters.
Proof.
  unfold findAll. destruct (parametersAccepted filters); [|discriminate].
  intros [= <-]. repeat split.
Qed.

(** *** [LIKE] with the pattern [%c%] *)

Lemma likeChars_percent c pat s :
  isPercent c = true ->
  likeChars (c :: pat) s
  = likeChars pat s
    || match s with [] => false | _ :: s' => likeChars (c :: pat) s' end.
Proof. intros H. simpl. rewrite H. destruct s; reflexivity. Qed.

Lemma likeChars_literal c pat s :
  isPercent c = false -> isUnderscore c = false -> isBackslash c = false ->
  likeChars (c :: pat) s
  = match s with [] => false | x :: s' => strEq x c && likeChars pat s' end.
Proof. intros H1 H2 H3. simpl. rewrite H1, H2, H3. reflexivity. Qed.

Lemma likeChars_any s : likeChars [[37]] s = true.
Proof.
  induction s as [|x s IH]; [reflexivity|].
  rewrite likeChars_percent by reflexivity. cbv iota.
  rewrite IH. apply orb_true_r.
Qed.

(** Around an ordinary character, [%c%] is membership. *)
Lemma likeChars_contains c s :
  isPercent c = false -> isUnderscore c = false -> isBackslash c = false ->
  likeChars [[37]; c; [37]] s = true <-> List.In c s.
Proof.
  intros H1 H2 H3. induction s as [|x s IH].
  - rewrite likeChars_percent by reflexivity.
    rewrite (likeChars_literal c [[37]] [] H1 H2 H3). cbv iota.
    simpl. split; [discriminate | tauto].
  - rewrite likeChars_percent by reflexivity.
    rewrite (likeChars_literal c [[37]] (x :: s) H1 H2 H3). cbv iota.
    rewrite likeChars_any, andb_true_r, orb_true_iff, IH, strEq_spec.
    simpl. tauto.
Qed.

Lemma codePoints_around c :
  codePoints c = [c] ->
  codePoints (js "%" ++ c ++ js "%") = [[37]; c; [37]].
Proof.
  destruct c as [|u [|l [|x c]]]; intros H.
  - discriminate.
  - change (codePoints [37; u; 37] = [[37]; [u]; [37]]).
    simpl. rewrite andb_false_r. reflexivity.
  - change (codePoints [37; u; l; 37] = [[37]; [u; l]; [37]]).
    simpl in *. destruct (isHighSurrogate u && isLowSurrogate l).
    + reflexivity.
    + discriminate.
  - exfalso. simpl in H.
    destruct (isHighSurrogate u && isLowSurrogate l); [|discriminate].
    injection H as H. destruct c as [|y c]; [discriminate|].
    destruct (isHighSurrogate x && isLowSurrogate y); discriminate.
Qed.

Lemma matches_contains_character r c :
  matches r (FilterStringsDto.set_contains_character c FilterStringsDto.empty)
  = negb (truthy c) || like (AnalyzedString.value r) (js "%" ++ c ++ js "%").
Proof. rewrite matches_fields. reflexivity. Qed.


Example contains_b_matches_abc :
  forall id properties created_at,
    matches (AnalyzedString.mk id (js "abc") properties created_at)
      (FilterStringsDto.set_contains_character (js "b") FilterStringsDto.empty)
    = true.
Proof. reflexivity. Qed.

Example contains_d_rejects_abc :
  forall id properties created_at,
    matches (AnalyzedString.mk id (js "abc") properties created_at)
      (FilterStringsDto.set_contains_character (js "d") FilterStringsDto.empty)
    = false.
Proof. reflexivity. Qed.

(** The pattern [%%%] matches every value. *)
Lemma contains_percent_matches_all r :
  matches r (FilterStringsDto.set_contains_character (js "%")
               FilterStringsDto.empty) = true.
Proof.
  rewrite matches_contains_character. cbn [truthy js negb orb]. unfold like.
  change (codePoints (js "%" ++ js "%" ++ js "%")) with [[37]; [37]; [37]].
  rewrite likeChars_percent by reflexivity.
  rewrite likeChars_percent by reflexivity.
  rewrite likeChars_any. reflexivity.
Qed.

(** C5 (the [contains_character] condition holds exactly when the
    character occurs in the value, also for [%] and [_]) fails in the
    code: the character is pasted unescaped into a [LIKE] pattern, so
    on the record of "abc" the filters [%] and [_] both match although
    neither character occurs in "abc". *)
Theorem contains_character_wildcards_match_abc :
  forall id properties created_at,
    let r := AnalyzedString.mk id (js "abc") properties created_at in
    matches r (FilterStringsDto.set_contains_character (js "%")
                 FilterStringsDto.empty) = true
    /\ includes (AnalyzedString.value r) (js "%") = false
    /\ matches r (FilterStringsDto.set_contains_character (js "_")
                    FilterStringsDto.empty) = true
    /\ includes (AnalyzedString.value r) (js "_") = false.
Proof. intros id properties created_at. repeat split; reflexivity. Qed.

(** ** The interpreter *)

Lemma stripPrefix_inv p : forall s r, stripPrefix p s = Some r -> s = p ++ r.
Proof.
  induction p as [|a p IH]; intros s r H; simpl in H.
  - injection H as ->. reflexivity.
  - destruct s as [|b s]; [discriminate|].
    destruct (N.eqb_spec a b); [|discriminate].
    subst b. simpl. f_equal. apply IH, H.
Qed.

Lemma stripPrefix_app p r : stripPrefix p (p ++ r) = Some r.
Proof.
  induction p as [|a p IH]; simpl; [reflexivity|].
  rewrite N.eqb_refl. exact IH.
Qed.

Lemma includes_unfold hay needle :
  includes hay needle
  = startsWith needle hay
    || match hay with [] => false | _ :: hay' => includes hay' needle end.
Proof. destruct hay; reflexivity. Qed.

(** [includes] is the infix relation. *)
Lemma includes_spec hay needle :
  includes hay needle = true
  <-> exists pre post, hay = pre ++ needle ++ post.
Proof.
  split.
  - induction hay as [|x hay IH]; rewrite includes_unfold; intros H;
      apply orb_true_iff in H as [H|H].
    + unfold startsWith in H. destruct (stripPrefix needle []) eqn:E; [|discriminate].
      exists [], l. exact (stripPrefix_inv _ _ _ E).
    + discriminate.
    + unfold startsWith in H.
      destruct (stripPrefix needle (x :: hay)) eqn:E; [|discriminate].
      exists [], l. exact (stripPrefix_inv _ _ _ E).
    + destruct (IH H) as (pre & post & ->). exists (x :: pre), post. reflexivity.
  - intros (pre & post & ->). induction pre as [|x pre IH];
      rewrite includes_unfold.
    + unfold startsWith. simpl. rewrite stripPrefix_app. reflexivity.
    + simpl. rewrite IH. apply orb_true_r.
Qed.

Lemma includes_infix hay a b c :
  includes hay (a ++ b ++ c) = true -> includes hay b = true.
Proof.
  intros H. apply includes_spec in H as (pre & post & ->).
  apply includes_spec. exists (pre ++ a), (c ++ post).
  rewrite <- !List.app_assoc. reflexivity.
Qed.

Lemma includes_vowel_e text :
  includes text (js "vowel") = true -> includes text (js "e") = true.
Proof. apply (includes_infix text (js "vow") (js "e") (js "l")). Qed.

Lemma includes_first_vowel text :
  includes text (js "first vowel") = true -> includes text (js "vowel") = true.
Proof. apply (includes_infix text (js "first ") (js "vowel") []). Qed.

(** A text that contains "vowel" contains the vowel e, so the scan
    stops at a or at e. *)
Lemma firstVowelIn_vowel text :
  includes text (js "vowel") = true ->
  firstVowelIn text
  = Some (if includes text (js "a") then js "a" else js "e").
Proof.
  intros H. apply includes_vowel_e in H.
  unfold firstVowelIn, vowels. cbn [List.find].
  destruct (includes text (js "a")); [reflexivity|].
  rewrite H. reflexivity.
Qed.

Lemma scanVowels_find lowerQuery vs filters :
  scanVowels lowerQuery vs filters
  = match List.find (fun vowel => includes lowerQuery vowel) vs with
    | Some vowel => FilterStringsDto.set_contains_character vowel filters
    | None => filters
    end.
Proof.
  induction vs as [|v vs IH]; [reflexivity|].
  simpl. destruct (includes lowerQuery v); [reflexivity | exact IH].
Qed.

Lemma parseInt10_nonneg digits : (0 <= parseInt10 digits)%Z.
Proof.
  unfold parseInt10.
  enough (H : forall acc, (0 <= acc)%Z ->
            (0 <= List.fold_left (fun acc c => 10 * acc + digitValue c) digits acc)%Z)
    by (apply H; lia).
  induction digits as [|c digits IH]; intros acc Hacc; simpl; [exact Hacc|].
  apply IH. unfold digitValue. lia.
Qed.

Lemma keyCount_zero f :
  FilterStringsDto.keyCount f = 0%nat <-> f = FilterStringsDto.empty.
Proof.
  split.
  - destruct f as [[?|] [?|] [?|] [?|] [?|]]; cbn; intros H;
      try discriminate; reflexivity.
  - intros ->. reflexivity.
Qed.

Ltac destruct_guards :=
  repeat match goal with
         | |- context [if ?b then _ else _] => destruct b
         | |- context [match ?o with Some _ => _ | None => _ end] => destruct o
         end.

Ltac guard_false H :=
  match type of H with
  | context [if ?b then _ else _] => destruct b eqn:?; [try discriminate|]
  | context [match ?o with Some _ => _ | None => _ end] =>
      destruct o eqn:?; [try discriminate|]
  end.

Section Interpreter.

Variable toLowerCase : jsstring -> jsstring.

Local Abbreviation parse := (parseNaturalLanguageQuery toLowerCase).

(** *** The parsed filter, field by field *)

Lemma parse_is_palindrome query :
  let lowerQuery := toLowerCase query in
  FilterStringsDto.is_palindrome (parse query)
  = if includes lowerQuery (js "palindrom")
       || includes lowerQuery (js "reads same forwards and backwards")
    then Some true else None.
Proof.
  unfold parseNaturalLanguageQuery. cbv zeta. rewrite scanVowels_find.
  destruct_guards; reflexivity.
Qed.

Lemma parse_word_count query :
  let lowerQuery := toLowerCase query in
  FilterStringsDto.word_count (parse query)
  = if includes lowerQuery (js "single word")
       || includes lowerQuery (js "one word")
    then Some 1%Z
    else if includes lowerQuery (js "two word")
            || includes lowerQuery (js "2 word")
    then Some 2%Z
    else if includes lowerQuery (js "three word")
            || includes lowerQuery (js "3 word")
    then Some 3%Z
    else None.
Proof.
  unfold parseNaturalLanguageQuery. cbv zeta. rewrite scanVowels_find.
  destruct_guards; reflexivity.
Qed.

Lemma parse_min_length query :
  let lowerQuery := toLowerCase query in
  FilterStringsDto.min_length (parse query)
  = match reExactLength lowerQuery with
    | Some n => Some (parseInt10 n)
    | None =>
        match reLongerThan lowerQuery with
        | Some n => Some (parseInt10 n + 1)%Z
        | None => None
        end
    end.
Proof.
  unfold parseNaturalLanguageQuery. cbv zeta. rewrite scanVowels_find.
  destruct_guards; reflexivity.
Qed.

Lemma parse_max_length query :
  let lowerQuery := toLowerCase query in
  FilterStringsDto.max_length (parse query)
  = match reExactLength lowerQuery with
    | Some n => Some (parseInt10 n)
    | None =>
        match reShorterThan lowerQuery with
        | Some n => Some (parseInt10 n - 1)%Z
        | None => None
        end
    end.
Proof.
  unfold parseNaturalLanguageQuery. cbv zeta. rewrite scanVowels_find.
  destruct_guards; reflexivity.
Qed.

Lemma parse_contains_character query :
  let lowerQuery := toLowerCase query in
  FilterStringsDto.contains_character (parse query)
  = if includes lowerQuery (js "vowel")
    then firstVowelIn lowerQuery
    else if includes lowerQuery (js "first vowel") then Some (js "a")
    else reContainsLetter lowerQuery.
Proof.
  cbv zeta. destruct (includes (toLowerCase query) (js "vowel")) eqn:Hv.
  - unfold parseNaturalLanguageQuery. cbv zeta. rewrite Hv, scanVowels_find.
    fold (firstVowelIn (toLowerCase query)).
    rewrite (firstVowelIn_vowel _ Hv). reflexivity.
  - unfold parseNaturalLanguageQuery. cbv zeta. rewrite Hv.
    destruct_guards; reflexivity.
Qed.

(** *** What the rules guarantee *)

(** X16: Whenever the folded text contains "vowel", the last rule decides
    [contains_character]: it is the first of a, e, i, o, u that occurs
    in the folded text, whatever the letter rule found. *)
Lemma vowel_rule_decides query :
  let lowerQuery := toLowerCase query in
  includes lowerQuery (js "vowel") = true ->
  FilterStringsDto.contains_character (parse query) = firstVowelIn lowerQuery
  /\ firstVowelIn lowerQuery
     = Some (if includes lowerQuery (js "a") then js "a" else js "e").
Proof.
  cbv zeta. intros Hv. rewrite parse_contains_character. cbv zeta.
  rewrite Hv. split; [reflexivity | apply firstVowelIn_vowel, Hv].
Qed.

(** X14: A match of [length (of )?N], for a number N below 2^53 (where
    the source's numbers are exact), sets both bounds to N, whatever
    the "longer than" and "shorter than" rules set before. *)
Lemma exact_length_sets_both_bounds query n :
  reExactLength (toLowerCase query) = Some n ->
  (parseInt10 n < 2 ^ 53)%Z ->
  FilterStringsDto.min_length (parse query) = Some (parseInt10 n)
  /\ FilterStringsDto.max_length (parse query) = Some (parseInt10 n).
Proof.
  intros H _. rewrite parse_min_length, parse_max_length. cbv zeta.
  rewrite H. split; reflexivity.
Qed.

(** The numeric fields of a parsed filter: [word_count] is 1, 2 or 3,
    [min_length] is at least 0 and [max_length] at least -1. *)
Lemma parse_numeric_bounds query :
  (forall v, FilterStringsDto.word_count (parse query) = Some v ->
             (1 <= v <= 3)%Z)
  /\ (forall v, FilterStringsDto.min_length (parse query) = Some v ->
                (0 <= v)%Z)
  /\ (forall v, FilterStringsDto.max_length (parse query) = Some v ->
                (-1 <= v)%Z).
Proof.
  rewrite parse_word_count, parse_min_length, parse_max_length. cbv zeta.
  split; [|split]; intros v H; revert H; destruct_guards; intros H;
    try discriminate; injection H as <-;
    try lia;
    match goal with
    | |- context [parseInt10 ?n] => pose proof (parseInt10_nonneg n); lia
    end.
Qed.

Lemma filter_eq_empty f :
  FilterStringsDto.is_palindrome f = None ->
  FilterStringsDto.min_length f = None ->
  FilterStringsDto.max_length f = None ->
  FilterStringsDto.word_count f = None ->
  FilterStringsDto.contains_character f = None ->
  f = FilterStringsDto.empty.
Proof. destruct f; simpl; intros; subst; reflexivity. Qed.

(** Nothing is parsed exactly when no rule fires. *)
Lemma parse_empty_iff_no_rule query :
  parse query = FilterStringsDto.empty
  <-> ruleFires (toLowerCase query) = false.
Proof.
  pose proof (parse_is_palindrome query) as Hp.
  pose proof (parse_word_count query) as Hw.
  pose proof (parse_min_length query) as Hmn.
  pose proof (parse_max_length query) as Hmx.
  pose proof (parse_contains_character query) as Hc.
  cbv zeta in *. unfold ruleFires.
  pose proof (firstVowelIn_vowel (toLowerCase query)) as Hfv.
  split.
  - intros E. rewrite E in *. simpl in Hp, Hw, Hmn, Hmx, Hc.
    guard_false Hc; [rewrite Hfv in Hc by (assumption || reflexivity); discriminate|].
    guard_false Hc. guard_false Hp. do 3 guard_false Hw.
    guard_false Hmn. guard_false Hmn. guard_false Hmx.
    repeat match goal with
           | H : _ || _ = false |- _ => apply orb_false_iff in H as [? ?]
           end.
    repeat match goal with
           | H : includes _ _ = false |- _ => rewrite H
           | H : _ = None |- _ => rewrite H
           end.
    rewrite <- Hc. reflexivity.
  - intros H. rewrite !orb_false_iff in H.
    destruct H as (((((((((((((H1 & H2) & H3) & H4) & H5) & H6) & H7) & H8)
                    & H9) & H10) & H11) & H12) & H13) & H14).
    rewrite H1, H2 in Hp. rewrite H3, H4, H5, H6, H7, H8 in Hw.
    rewrite H13, H14 in Hc.
    destruct (reLongerThan (toLowerCase query)); [discriminate|].
    destruct (reShorterThan (toLowerCase query)); [discriminate|].
    destruct (reExactLength (toLowerCase query)); [discriminate|].
    destruct (reContainsLetter (toLowerCase query)); [discriminate|].
    apply filter_eq_empty; assumption.
Qed.

(** C6: [filterByNaturalLanguage] fails with the bad-request exception
    (which reports an unparsable query) exactly when the interpreter
    returns the empty filter, which is exactly when no rule fires on
    the folded text; the interpreter is a total function.  In every
    other case the call does what [findAll] does with the parsed
    filter: it throws the database's error when [findAll] throws it, and
    returns [findAll]'s result otherwise. *)
Theorem filterByNaturalLanguage_fails_iff_empty :
  forall (store : list AnalyzedString.t) (queryText : jsstring),
    let filters := parse queryText in
    (filterByNaturalLanguage toLowerCase store queryText
     = inl (Http BadRequestException)
     <-> filters = FilterStringsDto.empty)
    /\ (filters = FilterStringsDto.empty
        <-> ruleFires (toLowerCase queryText) = false)
    /\ ((filters = FilterStringsDto.empty
         /\ filterByNaturalLanguage toLowerCase store queryText
            = inl (Http BadRequestException))
        \/ (filters <> FilterStringsDto.empty
            /\ findAll store filters = inl QueryFailedError
            /\ filterByNaturalLanguage toLowerCase store queryText
               = inl QueryFailedError)
        \/ (filters <> FilterStringsDto.empty
            /\ exists result,
                 findAll store filters = inr result
                 /\ filterByNaturalLanguage toLowerCase store queryText
                    = inr (mkNaturalLanguageResult
                             (data result) (count result)
                             queryText filters))).
Proof.
  intros store queryText filters. unfold filterByNaturalLanguage.
  fold filters.
  assert (Hfind : findAll store filters = inl QueryFailedError
                  \/ exists result, findAll store filters = inr result).
  { unfold findAll. destruct (parametersAccepted filters);
      [right; eexists; reflexivity | left; reflexivity]. }
  destruct (Nat.eqb_spec (FilterStringsDto.keyCount filters) 0) as [E|E].
  - apply keyCount_zero in E. split; [tauto|].
    split; [apply parse_empty_iff_no_rule|]. left. tauto.
  - assert (Hne : filters <> FilterStringsDto.empty)
      by (intros H; apply keyCount_zero in H; contradiction).
    split; [|split; [apply parse_empty_iff_no_rule|]].
    + split; [|contradiction].
      destruct Hfind as [H | [result H]]; rewrite H; discriminate.
    + destruct Hfind as [H | [result H]]; rewrite H.
      * right. left. tauto.
      * right. right. split; [exact Hne|]. exists result. tauto.
Qed.

End Interpreter.

(** *** The interpreter on literal queries *)

Example interpret_single_word_palindromic :
  parseNaturalLanguageQuery asciiToLowerCase
    (js "all single word palindromic strings")
  = FilterStringsDto.mk (Some true) None None (Some 1%Z) None.
Proof. reflexivity. Qed.

Example interpret_longer_than_10 :
  parseNaturalLanguageQuery asciiToLowerCase
    (js "strings longer than 10 characters")
  = FilterStringsDto.mk None (Some 11%Z) None None None.
Proof. reflexivity. Qed.

Example interpret_shorter_than_5 :
  parseNaturalLanguageQuery asciiToLowerCase
    (js "strings shorter than 5 characters")
  = FilterStringsDto.mk None None (Some 4%Z) None None.
Proof. reflexivity. Qed.

Example interpret_contain_letter_z :
  parseNaturalLanguageQuery asciiToLowerCase
    (js "palindromic strings that contain the letter z")
  = FilterStringsDto.mk (Some true) None None None (Some (js "z")).
Proof. reflexivity. Qed.

Example interpret_length_of_7 :
  parseNaturalLanguageQuery asciiToLowerCase
    (js "longer than 9 and shorter than 3 with length of 7")
  = FilterStringsDto.mk None (Some 7%Z) (Some 7%Z) None None.
Proof. reflexivity. Qed.

Example interpret_letter_z_and_vowel :
  parseNaturalLanguageQuery asciiToLowerCase
    (js "strings that contain the letter z or some vowel")
  = FilterStringsDto.mk None None None None (Some (js "a")).
Proof. reflexivity. Qed.

Example filterByNaturalLanguage_rejects_hello :
  forall store,
    filterByNaturalLanguage asciiToLowerCase store (js "hello there")
    = inl (Http BadRequestException).
Proof. reflexivity. Qed.

Example filterByNaturalLanguage_accepts_palindromes :
  filterByNaturalLanguage asciiToLowerCase [] (js "Palindromes")
  = inr (mkNaturalLanguageResult [] 0 (js "Palindromes")
           (FilterStringsDto.mk (Some true) None None None None)).
Proof. reflexivity. Qed.

Example filterByNaturalLanguage_number_out_of_range :
  forall store,
    filterByNaturalLanguage asciiToLowerCase store
      (js "strings longer than 9999999999")
    = inl QueryFailedError.
Proof. reflexivity. Qed.

(** The numbers in a result of [filterByNaturalLanguage] are 32-bit
    integers, well inside the range where the parsed values are
    exact. *)
Lemma filterByNaturalLanguage_numbers_bound toLowerCase store queryText result :
  filterByNaturalLanguage toLowerCase store queryText = inr result ->
  parsed_filters result = parseNaturalLanguageQuery toLowerCase queryText
  /\ bindsInt (FilterStringsDto.min_length (parsed_filters result)) = true
  /\ bindsInt (FilterStringsDto.max_length (parsed_filters result)) = true.
Proof.
  unfold filterByNaturalLanguage.
  destruct (Nat.eqb _ 0); [discriminate|].
  destruct (findAll store _) as [e|found] eqn:E; [discriminate|].
  intros [= <-]. cbn [parsed_filters].
  apply findAll_inr in E as (Hacc & _).
  unfold parametersAccepted in Hacc. rewrite !andb_true_iff in Hacc.
  tauto.
Qed.

(** C2 (the vowel scan does not run once "first vowel" has matched)
    fails in the code: the scan is guarded by "vowel" alone, so on
    "strings with the first vowel" it runs after the "first vowel"
    rule and replaces its 'a' by the first vowel that occurs in the
    query text, 'e'. *)
Theorem vowel_scan_runs_after_first_vowel :
  let query := js "strings with the first vowel" in
  let lowerQuery := asciiToLowerCase query in
  includes lowerQuery (js "first vowel") = true
  /\ firstVowelIn lowerQuery = Some (js "e")
  /\ FilterStringsDto.contains_character
       (parseNaturalLanguageQuery asciiToLowerCase query)
     = firstVowelIn lowerQuery
  /\ FilterStringsDto.contains_character
       (parseNaturalLanguageQuery asciiToLowerCase query)
     <> Some (js "a").
Proof. cbv zeta. repeat split; try reflexivity. discriminate. Qed.

(** C3 ("first vowel" yields [contains_character = 'a']) fails in the
    code: "strings with the first vowel" is interpreted as
    [{contains_character: 'e'}]. *)
Theorem first_vowel_query_yields_e :
  parseNaturalLanguageQuery asciiToLowerCase (js "strings with the first vowel")
  = FilterStringsDto.mk None None None None (Some (js "e")).
Proof. reflexivity. Qed.

(** C4 (an "N characters long" phrase sets both bounds to N) fails in
    the code: only [length (of )?N] is matched, so "strings 5
    characters long" sets nothing and the query is rejected. *)
Theorem characters_long_is_not_parsed :
  parseNaturalLanguageQuery asciiToLowerCase (js "strings 5 characters long")
  = FilterStringsDto.empty
  /\ forall store,
       filterByNaturalLanguage asciiToLowerCase store
         (js "strings 5 characters long")
       = inl (Http BadRequestException).
Proof. split; [reflexivity | intros store; reflexivity]. Qed.

(** C9 (every present [max_length] of a parsed filter is at least 0)
    fails in the code: "strings shorter than 0" is interpreted as
    [{max_length: -1}]. *)
Theorem shorter_than_zero_yields_negative_max_length :
  parseNaturalLanguageQuery asciiToLowerCase (js "strings shorter than 0")
  = FilterStringsDto.mk None None (Some (-1)%Z) None None.
Proof. reflexivity. Qed.

(** ** More on [computeProperties] *)

Lemma strEq_refl a : strEq a a = true.
Proof. apply strEq_spec. reflexivity. Qed.

Lemma strEq_false a b : a <> b -> strEq a b = false.
Proof.
  intros H. destruct (strEq a b) eqn:E; [|reflexivity].
  apply strEq_spec in E. contradiction.
Qed.

Lemma lookup_countChar (m : gmap jsstring Z) c ch :
  countChar m c !! ch
  = if strEq ch c then Some (orZero (m !! ch) + 1)%Z else m !! ch.
Proof.
  unfold countChar. destruct (strEq ch c) eqn:E.
  - apply strEq_spec in E. subst c. apply lookup_insert_eq.
  - apply lookup_insert_ne. intros ->. rewrite strEq_refl in E. discriminate.
Qed.

Lemma lookup_fold_countChar ch chars : forall m : gmap jsstring Z,
  List.fold_left countChar chars m !! ch
  = match occurrences ch chars with
    | O => m !! ch
    | S _ => Some (orZero (m !! ch) + Z.of_nat (occurrences ch chars))%Z
    end.
Proof.
  unfold occurrences.
  induction chars as [|c chars IH]; intros m; [reflexivity|].
  simpl List.fold_left. rewrite IH, lookup_countChar. simpl List.filter.
  destruct (strEq ch c); simpl List.length.
  - rewrite orZero_Some.
    destruct (List.length (List.filter (strEq ch) chars)); f_equal; lia.
  - reflexivity.
Qed.

Lemma dom_fold_countChar chars : forall m : gmap jsstring Z,
  dom (List.fold_left countChar chars m) = dom m ∪ list_to_set chars.
Proof.
  induction chars as [|c chars IH]; intros m; simpl.
  - set_solver.
  - rewrite IH. unfold countChar. rewrite dom_insert_L. set_solver.
Qed.

Lemma size_list_to_set_le (l : list jsstring) :
  (size (list_to_set l : gset jsstring) <= List.length l)%nat.
Proof.
  induction l as [|x l IH].
  - rewrite list_to_set_nil, size_empty. simpl. lia.
  - rewrite list_to_set_cons, size_union_alt, size_singleton. simpl List.length.
    assert (size ((list_to_set l : gset jsstring) ∖ {[x]})
            <= size (list_to_set l : gset jsstring))%nat
      by (apply subseteq_size; set_solver).
    lia.
Qed.

Lemma codePoints_nil_inv s : codePoints s = [] -> s = [].
Proof.
  destruct s as [|c [|d rest]]; simpl; try discriminate; [reflexivity|].
  destruct (isHighSurrogate c && isLowSurrogate d); discriminate.
Qed.

Lemma tokensFrom_nil_inv s : forall cur,
  tokensFrom cur s = [] -> cur = [] /\ List.forallb isWhiteSpace s = true.
Proof.
  induction s as [|c s IH]; intros cur H; simpl in *.
  - destruct cur; [split; reflexivity | discriminate].
  - destruct (isWhiteSpace c).
    + destruct cur; [|discriminate]. split; [reflexivity|]. apply (IH [] H).
    + destruct (IH _ H) as [E _]. discriminate.
Qed.

Lemma tokensFrom_count s : forall cur,
  (2 * List.length (tokensFrom cur s)
   <= List.length s + match cur with [] => 1 | _ :: _ => 2 end)%nat.
Proof.
  induction s as [|c s IH]; intros cur; simpl.
  - destruct cur; simpl; lia.
  - destruct (isWhiteSpace c).
    + specialize (IH []). destruct cur; simpl in *; lia.
    + specialize (IH (c :: cur)). destruct cur; simpl in *; lia.
Qed.

Section MoreComputeProperties.

Variable toLowerCase : jsstring -> jsstring.
Variable sha256Hex : jsstring -> jsstring.

Local Abbreviation compute := (computeProperties toLowerCase sha256Hex).

(** X1: Every entry of the frequency map is the number of times its
    character comes up when the value is iterated, and a character that
    never comes up has no entry. *)
Theorem frequency_map_counts_occurrences value ch :
  StringProperties.character_frequency_map (compute value) !! ch
  = match occurrences ch (codePoints value) with
    | O => None
    | S n => Some (Z.of_nat (S n))
    end.
Proof.
  unfold computeProperties. simpl StringProperties.character_frequency_map.
  unfold frequencyMap. rewrite lookup_fold_countChar, lookup_empty.
  destruct (occurrences ch (codePoints value)); [reflexivity|].
  simpl orZero. f_equal.
Qed.

(** X2: [unique_characters] is the number of keys of the frequency map; it
    is at most the number of iterated characters, hence at most
    [length], and it is 0 only for the empty string. *)
Theorem unique_characters_counts_keys value :
  StringProperties.unique_characters (computeProperties toLowerCase sha256Hex value)
  = Z.of_nat (size (StringProperties.character_frequency_map (computeProperties toLowerCase sha256Hex value)))
  /\ (0 <= StringProperties.unique_characters (computeProperties toLowerCase sha256Hex value)
      <= StringProperties.length (computeProperties toLowerCase sha256Hex value))%Z
  /\ (StringProperties.unique_characters (computeProperties toLowerCase sha256Hex value) = 0%Z
      <-> value = []).
Proof.
  unfold computeProperties. cbn [StringProperties.unique_characters
    StringProperties.character_frequency_map StringProperties.length].
  split; [|split].
  - rewrite <- size_dom. unfold frequencyMap.
    rewrite dom_fold_countChar, dom_empty_L, (left_id_L ∅ (∪)). reflexivity.
  - pose proof (size_list_to_set_le (codePoints value)).
    pose proof (codePoints_length_le value). unfold jsLength. lia.
  - split.
    + intros H. apply codePoints_nil_inv.
      assert (E : size (list_to_set (codePoints value) : gset jsstring) = 0%nat)
        by lia.
      apply size_empty_iff in E.
      destruct (codePoints value) as [|x l]; [reflexivity|].
      exfalso. set_solver.
    + intros ->. reflexivity.
Qed.

(** X4: [word_count] is 0 exactly on the values made of whitespace only
    (the empty string among them), and never more than half of
    [length + 1]. *)
Theorem word_count_zero_iff_blank value :
  (StringProperties.word_count (compute value) = 0%Z
   <-> List.forallb isWhiteSpace value = true)
  /\ (0 <= 2 * StringProperties.word_count (compute value)
      <= StringProperties.length (compute value) + 1)%Z.
Proof.
  rewrite word_count_tokens, tokens_trim. split.
  - split.
    + intros H. destruct (tokens value) eqn:E; [|simpl in H; lia].
      apply (tokensFrom_nil_inv value [] E).
    + intros H. rewrite (tokens_all_ws value H). reflexivity.
  - pose proof (tokensFrom_count value []) as H. cbv iota in H.
    fold (tokens value) in H.
    cbn [StringProperties.length computeProperties]. unfold jsLength. lia.
Qed.

End MoreComputeProperties.

(** ** More on [findAll] *)

Lemma insertDesc_perm r rows : Permutation (insertDesc r rows) (r :: rows).
Proof.
  induction rows as [|x rows IH]; simpl; [reflexivity|].
  destruct (AnalyzedString.created_at x <=? AnalyzedString.created_at r)%Z.
  - reflexivity.
  - rewrite IH. apply perm_swap.
Qed.

Lemma orderByCreatedAtDesc_perm rows :
  Permutation (orderByCreatedAtDesc rows) rows.
Proof.
  unfold orderByCreatedAtDesc. induction rows as [|r rows IH]; simpl.
  - reflexivity.
  - rewrite insertDesc_perm, IH. reflexivity.
Qed.

Lemma insertDesc_sorted r rows :
  StronglySorted newerOrEqual rows ->
  StronglySorted newerOrEqual (insertDesc r rows).
Proof.
  induction rows as [|x rows IH]; intros Hs; simpl.
  - constructor; constructor.
  - apply StronglySorted_inv in Hs as [Hs Hx].
    destruct (Z.leb_spec (AnalyzedString.created_at x)
                         (AnalyzedString.created_at r)) as [Hle|Hlt].
    + constructor; [constructor; assumption|].
      constructor; [exact Hle|].
      eapply List.Forall_impl; [|exact Hx].
      unfold newerOrEqual. intros y Hy. lia.
    + constructor; [apply IH, Hs|].
      eapply Permutation_Forall;
        [symmetry; apply insertDesc_perm|].
      constructor; [unfold newerOrEqual; lia | exact Hx].
Qed.

Lemma orderByCreatedAtDesc_sorted rows :
  StronglySorted newerOrEqual (orderByCreatedAtDesc rows).
Proof.
  unfold orderByCreatedAtDesc. induction rows as [|r rows IH]; simpl.
  - constructor.
  - apply insertDesc_sorted, IH.
Qed.

Lemma findAll_result_perm store filters result :
  findAll store filters = inr result ->
  Permutation (data result)
              (List.filter (fun r => matches r filters) store).
Proof.
  intros H. apply findAll_inr in H as (_ & -> & _).
  apply orderByCreatedAtDesc_perm.
Qed.

Lemma findAll_result_In store filters result r :
  findAll store filters = inr result ->
  List.In r (data result)
  <-> List.In r store /\ matches r filters = true.
Proof.
  intros H. pose proof (findAll_result_perm _ _ _ H) as P.
  pose proof (List.filter_In (fun r => matches r filters) r store) as F.
  cbv beta in F. rewrite <- F.
  split; apply Permutation_in; [exact P | symmetry; exact P].
Qed.

Lemma findAll_result_count store filters result :
  findAll store filters = inr result ->
  count result
  = Z.of_nat (List.length (List.filter (fun r => matches r filters) store)).
Proof.
  intros H. pose proof (findAll_result_perm _ _ _ H) as P.
  apply findAll_inr in H as (_ & _ & -> & _).
  f_equal. apply Permutation_length, P.
Qed.

(** X5: [findAll] throws exactly when PostgreSQL refuses one of its
    parameters (a number outside the 32-bit integers, a pattern with
    U+0000), and then the database's error, never an HTTP exception.
    When it returns, the data are the stored records that match the
    filter, each as often as it is stored, ordered by [created_at] from
    the most recent to the oldest, and [count] is their number. *)
Theorem findAll_matching_most_recent_first store filters :
  (findAll store filters = inl QueryFailedError
   <-> bindsInt (FilterStringsDto.min_length filters)
       && bindsInt (FilterStringsDto.max_length filters)
       && bindsInt (FilterStringsDto.word_count filters)
       && bindsPattern (FilterStringsDto.contains_character filters)
       = false)
  /\ (forall e, findAll store filters <> inl (Http e))
  /\ (forall result,
        findAll store filters = inr result ->
        Permutation (data result)
                    (List.filter (fun r => matches r filters) store)
        /\ StronglySorted newerOrEqual (data result)
        /\ (forall r, List.In r (data result)
                      <-> List.In r store /\ matches r filters = true)
        /\ count result
           = Z.of_nat
               (List.length
                  (List.filter (fun r => matches r filters) store))).
Proof.
  split; [|split].
  - fold (parametersAccepted filters). unfold findAll.
    destruct (parametersAccepted filters); split; congruence.
  - intros e. unfold findAll.
    destruct (parametersAccepted filters); discriminate.
  - intros result H.
    split; [eapply findAll_result_perm, H|].
    split; [|split; [intros r; eapply findAll_result_In, H
                    |eapply findAll_result_count, H]].
    apply findAll_inr in H as (_ & -> & _).
    apply orderByCreatedAtDesc_sorted.
Qed.

Lemma findAll_matching_most_recent_first_witness :
  let r := AnalyzedString.mk (noDigest (js "abcd")) (js "abcd")
             (computeProperties asciiToLowerCase noDigest (js "abcd")) 0 in
  let f := FilterStringsDto.set_min_length 3 FilterStringsDto.empty in
  Permutation [r] (List.filter (fun r => matches r f) [r])
  /\ StronglySorted newerOrEqual [r]
  /\ (forall x, List.In x [r] <-> List.In x [r] /\ matches x f = true)
  /\ 1%Z = Z.of_nat (List.length (List.filter (fun r => matches r f) [r])).
Proof.
  intros r f.
  apply (proj2 (proj2 (findAll_matching_most_recent_first [r] f))
           (mkFindAllResult [r] 1 f)).
  reflexivity.
Defined.

Lemma filter_none {A} (p : A -> bool) l :
  (forall x, List.In x l -> p x = false) -> List.filter p l = [].
Proof.
  induction l as [|x l IH]; intros H; simpl; [reflexivity|].
  rewrite (H x) by (left; reflexivity).
  apply IH. intros y Hy. apply H. right. exact Hy.
Qed.

Lemma findAll_none_match store filters result :
  (forall r, List.In r store -> matches r filters = false) ->
  findAll store filters = inr result ->
  data result = [] /\ count result = 0%Z.
Proof.
  intros Hnone H. apply findAll_inr in H as (_ & Hd & Hc & _).
  rewrite (filter_none _ store Hnone) in Hd.
  rewrite Hc, Hd. split; reflexivity.
Qed.

(** X6: A filter whose [min_length] exceeds its [max_length] is legal:
    whenever the database accepts its parameters, [findAll] returns,
    and selects nothing. *)
Theorem findAll_crossed_bounds_selects_nothing store filters lo hi :
  FilterStringsDto.min_length filters = Some lo ->
  FilterStringsDto.max_length filters = Some hi ->
  (hi < lo)%Z ->
  forall result,
    findAll store filters = inr result ->
    data result = [] /\ count result = 0%Z.
Proof.
  intros Hlo Hhi Hlt result. apply findAll_none_match. intros r _.
  rewrite matches_fields, Hlo, Hhi. cbn [fieldOk].
  destruct (Z.leb_spec lo (StringProperties.length (props r)));
    destruct (Z.leb_spec (StringProperties.length (props r)) hi);
    try lia; rewrite ?andb_false_r; reflexivity.
Qed.

Lemma findAll_crossed_bounds_selects_nothing_witness :
  let f := FilterStringsDto.mk None (Some 5%Z) (Some 3%Z) None None in
  let r := AnalyzedString.mk (noDigest (js "abcd")) (js "abcd")
             (computeProperties asciiToLowerCase noDigest (js "abcd")) 0 in
  data (mkFindAllResult [] 0 f) = [] /\ count (mkFindAllResult [] 0 f) = 0%Z.
Proof.
  intros f r.
  apply (findAll_crossed_bounds_selects_nothing [r] f 5 3);
    [reflexivity | reflexivity | lia | reflexivity].
Defined.

Lemma matches_merge r f1 f2 :
  disjointFields f1 f2 ->
  matches r (merge f1 f2) = matches r f1 && matches r f2.
Proof.
  intros (Hp & Hmn & Hmx & Hwc & Hcc).
  rewrite !matches_fields. unfold merge.
  cbn [FilterStringsDto.is_palindrome FilterStringsDto.min_length
       FilterStringsDto.max_length FilterStringsDto.word_count
       FilterStringsDto.contains_character].
  rewrite !fieldOk_orElse by assumption.
  repeat match goal with
         | |- context [fieldOk ?o ?t] =>
             let b := fresh "b" in set (b := fieldOk o t); clearbody b
         end.
  repeat match goal with b : bool |- _ => destruct b end; reflexivity.
Qed.

Lemma parametersAccepted_merge f1 f2 :
  disjointFields f1 f2 ->
  parametersAccepted (merge f1 f2)
  = parametersAccepted f1 && parametersAccepted f2.
Proof.
  intros (_ & Hmn & Hmx & Hwc & Hcc).
  unfold parametersAccepted, merge.
  cbn [FilterStringsDto.min_length FilterStringsDto.max_length
       FilterStringsDto.word_count FilterStringsDto.contains_character].
  change (@bindsInt) with (fun o : option Z => fieldOk o int4).
  change (@bindsPattern)
    with (fun o : option jsstring =>
            fieldOk o (fun c => if truthy c then negb (hasNul c) else true)).
  cbv beta. rewrite !fieldOk_orElse by assumption.
  repeat match goal with
         | |- context [fieldOk ?o ?t] =>
             let b := fresh "b" in set (b := fieldOk o t); clearbody b
         end.
  repeat match goal with b : bool |- _ => destruct b end; reflexivity.
Qed.

Lemma filter_length_le {A} (p q : A -> bool) l :
  (forall x, p x = true -> q x = true) ->
  (List.length (List.filter p l) <= List.length (List.filter q l))%nat.
Proof.
  intros H. induction l as [|x l IH]; simpl; [lia|].
  destruct (p x) eqn:Hp.
  - rewrite (H x Hp). simpl. lia.
  - destruct (q x); simpl; lia.
Qed.

(** X7: Merging a second filter over other fields can only narrow the
    result: whenever [findAll] returns for the merged filter it returns
    for each of the two, whatever is returned for the merged filter is
    returned for each of them, and the count does not grow. *)
Theorem findAll_merge_narrows store f1 f2 :
  disjointFields f1 f2 ->
  forall result,
    findAll store (merge f1 f2) = inr result ->
    exists result1 result2,
      findAll store f1 = inr result1
      /\ findAll store f2 = inr result2
      /\ (forall r, List.In r (data result) ->
                    List.In r (data result1) /\ List.In r (data result2))
      /\ (count result <= count result1)%Z
      /\ (count result <= count result2)%Z.
Proof.
  intros Hd result H.
  assert (Hm : forall r, matches r (merge f1 f2) = true ->
                         matches r f1 = true /\ matches r f2 = true).
  { intros r. rewrite (matches_merge r f1 f2 Hd). apply andb_true_iff. }
  pose proof (findAll_inr _ _ _ H) as (Hacc & _).
  rewrite (parametersAccepted_merge f1 f2 Hd) in Hacc.
  apply andb_true_iff in Hacc as [Hacc1 Hacc2].
  pose proof (findAll_accepted store f1 Hacc1) as H1.
  pose proof (findAll_accepted store f2 Hacc2) as H2.
  eexists. eexists. split; [exact H1|]. split; [exact H2|].
  split; [|split].
  - intros r Hr. apply (findAll_result_In _ _ _ r H) in Hr as [Hin Hr].
    destruct (Hm r Hr) as [Hr1 Hr2].
    split; [apply (findAll_result_In _ _ _ r H1)
           |apply (findAll_result_In _ _ _ r H2)]; split; assumption.
  - rewrite (findAll_result_count _ _ _ H), (findAll_result_count _ _ _ H1).
    apply Nat2Z.inj_le, filter_length_le. intros r Hr. apply (Hm r Hr).
  - rewrite (findAll_result_count _ _ _ H), (findAll_result_count _ _ _ H2).
    apply Nat2Z.inj_le, filter_length_le. intros r Hr. apply (Hm r Hr).
Qed.

Lemma findAll_merge_narrows_witness :
  let r := AnalyzedString.mk (noDigest (js "abc")) (js "abc")
             (computeProperties asciiToLowerCase noDigest (js "abc")) 0 in
  let f1 := FilterStringsDto.set_min_length 3 FilterStringsDto.empty in
  let f2 := FilterStringsDto.set_is_palindrome true FilterStringsDto.empty in
  exists result1 result2,
    findAll [r] f1 = inr result1
    /\ findAll [r] f2 = inr result2
    /\ (forall x, List.In x [] ->
                  List.In x (data result1) /\ List.In x (data result2))
    /\ (0 <= count result1)%Z
    /\ (0 <= count result2)%Z.
Proof.
  intros r f1 f2.
  apply (findAll_merge_narrows [r] f1 f2
           ltac:(unfold disjointFields, notBoth; simpl;
                 repeat split; (left; reflexivity) || (right; reflexivity))
           (mkFindAllResult [] 0 (merge f1 f2))).
  reflexivity.
Defined.

(** ** More on the [contains_character] condition *)

Lemma likeChars_underscore c pat s :
  isPercent c = false -> isUnderscore c = true ->
  likeChars (c :: pat) s
  = match s with [] => false | _ :: s' => likeChars pat s' end.
Proof. intros H1 H2. simpl. rewrite H1, H2. reflexivity. Qed.

Lemma likeChars_one_or_more s :
  likeChars [[37]; [95]; [37]] s = true <-> s <> [].
Proof.
  destruct s as [|x s].
  - split; [discriminate | congruence].
  - rewrite likeChars_percent by reflexivity.
    rewrite (likeChars_underscore [95] [[37]] (x :: s)) by reflexivity.
    cbv iota. rewrite likeChars_any. split; [discriminate | reflexivity].
Qed.

Lemma likeChars_escaped_percent s :
  likeChars [[92]; [37]] s = true <-> s = [[37]].
Proof.
  destruct s as [|x [|y s]]; simpl.
  - split; discriminate.
  - rewrite andb_true_r, strEq_spec. split; congruence.
  - rewrite andb_false_r. split; discriminate.
Qed.

Lemma likeChars_ends_with_percent s :
  likeChars [[37]; [92]; [37]] s = true <-> exists pre, s = pre ++ [[37]].
Proof.
  induction s as [|x s IH]; rewrite likeChars_percent by reflexivity;
    rewrite orb_true_iff, likeChars_escaped_percent.
  - split.
    + intros [H|H]; discriminate.
    + intros [[|y pre] H]; discriminate.
  - rewrite IH. split.
    + intros [H | [pre ->]].
      * exists []. exact H.
      * exists (x :: pre). reflexivity.
    + intros [[|y pre] H].
      * left. exact H.
      * right. injection H as -> ->. exists pre. reflexivity.
Qed.

Lemma concat_codePoints s : List.concat (codePoints s) = s.
Proof.
  enough (H : forall n s, (List.length s <= n)%nat ->
            List.concat (codePoints s) = s)
    by (apply (H (List.length s)); lia).
  clear s. induction n as [|n IH]; intros [|c [|d rest]] Hn; simpl in *;
    try reflexivity; try lia.
  destruct (isHighSurrogate c && isLowSurrogate d); simpl.
  - rewrite (IH rest) by lia. reflexivity.
  - specialize (IH (d :: rest)). simpl in IH. rewrite IH by lia. reflexivity.
Qed.

Lemma codePoints_snoc s x :
  isLowSurrogate x = false ->
  codePoints (s ++ [x]) = codePoints s ++ [[x]].
Proof.
  intros Hx.
  enough (H : forall n s, (List.length s <= n)%nat ->
            codePoints (s ++ [x]) = codePoints s ++ [[x]])
    by (apply (H (List.length s)); lia).
  clear s. induction n as [|n IH]; intros [|c [|d rest]] Hn; simpl in *;
    try reflexivity; try lia.
  - rewrite Hx, andb_false_r. reflexivity.
  - destruct (isHighSurrogate c && isLowSurrogate d); simpl.
    + rewrite (IH rest) by lia. reflexivity.
    + specialize (IH (d :: rest)). simpl in IH. rewrite IH by lia. reflexivity.
Qed.

Lemma matches_contains_character_like r c :
  truthy c = true ->
  matches r (FilterStringsDto.set_contains_character c FilterStringsDto.empty)
  = likeChars (codePoints (js "%" ++ c ++ js "%"))
              (codePoints (AnalyzedString.value r)).
Proof.
  intros Ht. rewrite matches_contains_character, Ht. reflexivity.
Qed.

(** X8: What the characters with a meaning in [LIKE] select, and the empty
    string: [%] matches every record, [_] every record with a
    non-empty value, a backslash exactly the records whose value ends
    with [%], and the empty string is no condition at all. *)
Theorem contains_character_special_characters r :
  matches r (FilterStringsDto.set_contains_character (js "%")
               FilterStringsDto.empty) = true
  /\ (matches r (FilterStringsDto.set_contains_character (js "_")
                   FilterStringsDto.empty) = true
      <-> AnalyzedString.value r <> [])
  /\ (matches r (FilterStringsDto.set_contains_character (js "\")
                   FilterStringsDto.empty) = true
      <-> exists pre, AnalyzedString.value r = pre ++ js "%")
  /\ matches r (FilterStringsDto.set_contains_character []
                  FilterStringsDto.empty) = true.
Proof.
  split; [apply contains_percent_matches_all | split; [|split]].
  - rewrite matches_contains_character_like by reflexivity.
    change (codePoints (js "%" ++ js "_" ++ js "%")) with [[37]; [95]; [37]].
    rewrite likeChars_one_or_more. split.
    + intros H E. apply H. rewrite E. reflexivity.
    + intros H E. apply H, codePoints_nil_inv, E.
  - rewrite matches_contains_character_like by reflexivity.
    change (codePoints (js "%" ++ js "\" ++ js "%")) with [[37]; [92]; [37]].
    rewrite likeChars_ends_with_percent. split.
    + intros [pre E]. exists (List.concat pre).
      rewrite <- (concat_codePoints (AnalyzedString.value r)), E.
      rewrite List.concat_app. reflexivity.
    + intros [pre ->]. exists (codePoints pre).
      apply (codePoints_snoc pre 37). reflexivity.
  - rewrite matches_contains_character. reflexivity.
Qed.


(** ** More on the interpreter *)

(** *** What the regular expressions match *)

Lemma search_result {A} (P : A -> Prop) (m : jsstring -> option A) s r :
  (forall s' r', m s' = Some r' -> P r') -> search m s = Some r -> P r.
Proof.
  intros Hm. induction s as [|c s IH]; simpl.
  - destruct (m []) eqn:E; [|discriminate]. intros [= <-]. eapply Hm, E.
  - destruct (m (c :: s)) eqn:E; [intros [= <-]; eapply Hm, E | exact IH].
Qed.

Lemma lit_result {A} (P : A -> Prop) p (k : jsstring -> option A) s r :
  (forall s' r', k s' = Some r' -> P r') -> lit p k s = Some r -> P r.
Proof.
  intros Hk. unfold lit. destruct (stripPrefix p s); [apply Hk | discriminate].
Qed.

Lemma alt_result {A} (P : A -> Prop) ps (k : jsstring -> option A) s r :
  (forall s' r', k s' = Some r' -> P r') -> alt ps k s = Some r -> P r.
Proof.
  intros Hk. induction ps as [|p ps IH]; simpl; [discriminate|].
  destruct (lit p k s) eqn:E; [|exact IH].
  intros [= <-]. eapply lit_result; [exact Hk | exact E].
Qed.

Lemma lowerLetter_result s r :
  lowerLetter s = Some r -> exists u, r = [u] /\ isLowerAZ u = true.
Proof.
  destruct s as [|c s]; simpl; [discriminate|].
  destruct (isLowerAZ c) eqn:E; [|discriminate].
  intros [= <-]. exists c. split; [reflexivity | exact E].
Qed.

Lemma reContainsLetter_result s r :
  reContainsLetter s = Some r -> exists u, r = [u] /\ isLowerAZ u = true.
Proof.
  unfold reContainsLetter.
  set (P := fun r : jsstring => exists u, r = [u] /\ isLowerAZ u = true).
  apply (search_result P).
  intros s1 r1. apply (lit_result P). intros s2 r2. apply (alt_result P).
  intros s3 r3. apply (lit_result P). intros s4 r4. apply (alt_result P).
  intros s5 r5. apply (alt_result P). apply lowerLetter_result.
Qed.

Lemma search_isSome {A} (m : jsstring -> option A) s :
  isSome (search m s) = true
  <-> exists pre post, s = pre ++ post /\ isSome (m post) = true.
Proof.
  induction s as [|c s IH]; simpl.
  - destruct (m []) eqn:E; simpl.
    + split; [|reflexivity]. intros _. exists [], [].
      rewrite E. split; reflexivity.
    + split; [discriminate|]. intros (pre & post & Hs & Hm).
      symmetry in Hs. apply List.app_eq_nil in Hs as [_ ->].
      rewrite E in Hm. discriminate.
  - destruct (m (c :: s)) eqn:E.
    + split; [|reflexivity]. intros _. exists [], (c :: s).
      rewrite E. split; reflexivity.
    + rewrite IH. split.
      * intros (pre & post & -> & Hm). exists (c :: pre), post.
        split; [reflexivity | exact Hm].
      * intros ([|x pre] & post & Hs & Hm); simpl in Hs.
        -- subst post. rewrite E in Hm. discriminate.
        -- injection Hs as -> ->. exists pre, post.
           split; [reflexivity | exact Hm].
Qed.

Lemma lit_isSome {A} p (k : jsstring -> option A) s :
  isSome (lit p k s) = true
  <-> exists rest, s = p ++ rest /\ isSome (k rest) = true.
Proof.
  unfold lit. destruct (stripPrefix p s) as [rest|] eqn:E.
  - apply stripPrefix_inv in E. subst s. split.
    + intros H. exists rest. split; [reflexivity | exact H].
    + intros (rest' & Hs & H). apply List.app_inv_head in Hs. subst rest'.
      exact H.
  - split; [discriminate|]. intros (rest & -> & _).
    rewrite stripPrefix_app in E. discriminate.
Qed.

Lemma alt_isSome {A} ps (k : jsstring -> option A) s :
  isSome (alt ps k s) = true
  <-> exists p rest, List.In p ps /\ s = p ++ rest /\ isSome (k rest) = true.
Proof.
  induction ps as [|p ps IH]; simpl.
  - split; [discriminate|]. intros (p & rest & [] & _).
  - destruct (lit p k s) eqn:E.
    + split; [|reflexivity]. intros _.
      assert (H : isSome (lit p k s) = true) by (rewrite E; reflexivity).
      apply lit_isSome in H as (rest & Hs & Hk).
      exists p, rest. split; [left; reflexivity | split; assumption].
    + rewrite IH. split.
      * intros (q & rest & Hq & Hs & Hk). exists q, rest.
        split; [right; exact Hq | split; assumption].
      * intros (q & rest & [<- | Hq] & Hs & Hk).
        -- assert (H : isSome (lit p k s) = true)
             by (apply lit_isSome; exists rest; split; assumption).
           rewrite E in H. discriminate.
        -- exists q, rest. split; [exact Hq | split; assumption].
Qed.

Lemma digits1_isSome s :
  isSome (digits1 s) = true
  <-> exists d rest, s = d :: rest /\ isDigit d = true.
Proof.
  unfold digits1. destruct s as [|c s]; simpl.
  - split; [discriminate|]. intros (d & rest & H & _). discriminate.
  - destruct (isDigit c) eqn:E; simpl.
    + split; [|reflexivity]. intros _. exists c, s.
      split; [reflexivity | exact E].
    + split; [discriminate|]. intros (d & rest & [= <- <-] & H). congruence.
Qed.

(** A pattern [literal(\d+)] matches somewhere exactly when the text
    contains the literal followed by a digit. *)
Lemma literal_digits_isSome p s :
  isSome (search (lit p digits1) s) = true
  <-> exists d, isDigit d = true /\ includes s (p ++ [d]) = true.
Proof.
  rewrite search_isSome. split.
  - intros (pre & post & -> & H).
    apply lit_isSome in H as (rest & -> & H).
    apply digits1_isSome in H as (d & rest' & -> & Hd).
    exists d. split; [exact Hd|]. apply includes_spec.
    exists pre, rest'. rewrite <- !List.app_assoc. reflexivity.
  - intros (d & Hd & H). apply includes_spec in H as (pre & post & ->).
    exists pre, (p ++ d :: post). split.
    + rewrite <- !List.app_assoc. reflexivity.
    + apply lit_isSome. exists (d :: post). split; [reflexivity|].
      apply digits1_isSome. exists d, post. split; [reflexivity | exact Hd].
Qed.

Lemma reExactLength_isSome s :
  isSome (reExactLength s) = true
  <-> exists d, isDigit d = true
                /\ (includes s (js "length " ++ [d]) = true
                    \/ includes s (js "length of " ++ [d]) = true).
Proof.
  unfold reExactLength. rewrite search_isSome. split.
  - intros (pre & post & -> & H).
    apply lit_isSome in H as (rest & -> & H).
    apply alt_isSome in H as (p & rest' & Hp & -> & H).
    apply digits1_isSome in H as (d & rest'' & -> & Hd).
    exists d. split; [exact Hd|].
    destruct Hp as [<- | [<- | []]]; [right | left];
      apply includes_spec; exists pre, rest'';
      rewrite <- !List.app_assoc; reflexivity.
  - intros (d & Hd & [H|H]); apply includes_spec in H as (pre & post & ->).
    + exists pre, (js "length " ++ d :: post). split.
      * rewrite <- !List.app_assoc. reflexivity.
      * apply lit_isSome. exists (d :: post). split; [reflexivity|].
        apply alt_isSome. exists [], (d :: post).
        split; [right; left; reflexivity | split; [reflexivity|]].
        apply digits1_isSome. exists d, post. split; [reflexivity | exact Hd].
    + exists pre, (js "length of " ++ d :: post). split.
      * rewrite <- !List.app_assoc. reflexivity.
      * apply lit_isSome. exists (js "of " ++ d :: post).
        split; [reflexivity|].
        apply alt_isSome. exists (js "of "), (d :: post).
        split; [left; reflexivity | split; [reflexivity|]].
        apply digits1_isSome. exists d, post. split; [reflexivity | exact Hd].
Qed.

Lemma isSome_not_None {A} (o : option A) : o <> None <-> isSome o = true.
Proof. destruct o; simpl; split; congruence. Qed.

Lemma In_codePoints_plain u s :
  isHighSurrogate u = false -> isLowSurrogate u = false ->
  List.In [u] (codePoints s) <-> List.In u s.
Proof.
  intros Hh Hl.
  enough (H : forall n s, (List.length s <= n)%nat ->
            (List.In [u] (codePoints s) <-> List.In u s))
    by (apply (H (List.length s)); lia).
  clear s. induction n as [|n IH]; intros [|c [|d rest]] Hn; simpl in *;
    try tauto; try lia.
  - split; intros [H|[]]; left; congruence.
  - destruct (isHighSurrogate c) eqn:Hc, (isLowSurrogate d) eqn:Hd; simpl;
      try (specialize (IH (d :: rest)); simpl in IH; rewrite IH by lia;
           split; [intros [H|H]; [left; congruence | right; exact H]
                  |intros [H|H]; [left; congruence | right; exact H]]).
    rewrite (IH rest) by lia. split.
    + intros [H|H]; [discriminate | right; right; exact H].
    + intros [H|[H|H]]; [congruence | congruence | right; exact H].
Qed.

Lemma lowerAZ_plain u :
  isLowerAZ u = true ->
  isHighSurrogate u = false /\ isLowSurrogate u = false
  /\ isPercent [u] = false /\ isUnderscore [u] = false
  /\ isBackslash [u] = false.
Proof.
  unfold isLowerAZ, isHighSurrogate, isLowSurrogate,
         isPercent, isUnderscore, isBackslash. simpl.
  rewrite andb_true_iff, !N.leb_le. intros [H1 H2].
  rewrite !andb_true_r.
  repeat split;
    try (apply andb_false_iff; left; apply N.leb_gt; lia);
    apply N.eqb_neq; lia.
Qed.

(** A lower-case ASCII letter as [contains_character] is membership of
    that code unit in the value. *)
Lemma matches_letter r u :
  isLowerAZ u = true ->
  matches r (FilterStringsDto.set_contains_character [u] FilterStringsDto.empty)
  = true
  <-> List.In u (AnalyzedString.value r).
Proof.
  intros Hu. destruct (lowerAZ_plain u Hu) as (Hh & Hl & H1 & H2 & H3).
  rewrite matches_contains_character_like by reflexivity.
  rewrite (codePoints_around [u]) by reflexivity.
  rewrite likeChars_contains by assumption.
  apply In_codePoints_plain; assumption.
Qed.

Section MoreInterpreter.

Variable toLowerCase : jsstring -> jsstring.

Local Abbreviation parse := (parseNaturalLanguageQuery toLowerCase).

(** X10: The interpreter can only ask for palindromes, never for
    non-palindromes, and it does so exactly on a text whose folded form
    contains "palindrom" or "reads same forwards and backwards"; the
    word count is decided by the first of the three pairs of phrases
    that occurs, in the order one, two, three. *)
Theorem parse_palindrome_and_word_count query :
  let lowerQuery := toLowerCase query in
  let one := includes lowerQuery (js "single word")
             || includes lowerQuery (js "one word") in
  let two := includes lowerQuery (js "two word")
             || includes lowerQuery (js "2 word") in
  let three := includes lowerQuery (js "three word")
               || includes lowerQuery (js "3 word") in
  FilterStringsDto.is_palindrome (parse query) <> Some false
  /\ (FilterStringsDto.is_palindrome (parse query) = Some true
      <-> includes lowerQuery (js "palindrom")
          || includes lowerQuery (js "reads same forwards and backwards")
          = true)
  /\ (FilterStringsDto.word_count (parse query) = Some 1%Z <-> one = true)
  /\ (FilterStringsDto.word_count (parse query) = Some 2%Z
      <-> one = false /\ two = true)
  /\ (FilterStringsDto.word_count (parse query) = Some 3%Z
      <-> one = false /\ two = false /\ three = true)
  /\ (FilterStringsDto.word_count (parse query) = None
      <-> one = false /\ two = false /\ three = false).
Proof.
  cbv zeta. rewrite parse_is_palindrome, parse_word_count. cbv zeta.
  destruct (includes (toLowerCase query) (js "palindrom")
            || includes (toLowerCase query)
                 (js "reads same forwards and backwards"));
    destruct (includes (toLowerCase query) (js "single word")
              || includes (toLowerCase query) (js "one word"));
    destruct (includes (toLowerCase query) (js "two word")
              || includes (toLowerCase query) (js "2 word"));
    destruct (includes (toLowerCase query) (js "three word")
              || includes (toLowerCase query) (js "3 word"));
    repeat split; intros; try discriminate; try tauto;
    repeat match goal with H : _ /\ _ |- _ => destruct H end;
    discriminate.
Qed.

(** X11: [min_length] is set exactly when the folded text contains
    "longer than ", "length " or "length of " followed by a digit, and
    [max_length] exactly when it contains "shorter than ", "length " or
    "length of " followed by a digit. *)
Theorem parse_length_bounds_set_iff query :
  let lowerQuery := toLowerCase query in
  (FilterStringsDto.min_length (parse query) <> None
   <-> exists d, isDigit d = true
         /\ (includes lowerQuery (js "longer than " ++ [d]) = true
             \/ includes lowerQuery (js "length " ++ [d]) = true
             \/ includes lowerQuery (js "length of " ++ [d]) = true))
  /\ (FilterStringsDto.max_length (parse query) <> None
      <-> exists d, isDigit d = true
            /\ (includes lowerQuery (js "shorter than " ++ [d]) = true
                \/ includes lowerQuery (js "length " ++ [d]) = true
                \/ includes lowerQuery (js "length of " ++ [d]) = true)).
Proof.
  cbv zeta. rewrite parse_min_length, parse_max_length. cbv zeta.
  pose proof (reExactLength_isSome (toLowerCase query)) as He.
  pose proof (literal_digits_isSome (js "longer than ") (toLowerCase query))
    as Hl.
  pose proof (literal_digits_isSome (js "shorter than ") (toLowerCase query))
    as Hs.
  fold reLongerThan in Hl. fold reShorterThan in Hs.
  split.
  - destruct (reExactLength (toLowerCase query)) as [n|].
    + split; [|discriminate]. intros _.
      destruct (proj1 He eq_refl) as (d & Hd & H).
      exists d. split; [exact Hd | right; exact H].
    + destruct (reLongerThan (toLowerCase query)) as [n|].
      * split; [|discriminate]. intros _.
        destruct (proj1 Hl eq_refl) as (d & Hd & H).
        exists d. split; [exact Hd | left; exact H].
      * split; [congruence|]. intros (d & Hd & [H|H]).
        -- assert (F : isSome (@None jsstring) = true)
             by (apply Hl; exists d; split; assumption).
           discriminate.
        -- assert (F : isSome (@None jsstring) = true)
             by (apply He; exists d; split; assumption).
           discriminate.
  - destruct (reExactLength (toLowerCase query)) as [n|].
    + split; [|discriminate]. intros _.
      destruct (proj1 He eq_refl) as (d & Hd & H).
      exists d. split; [exact Hd | right; exact H].
    + destruct (reShorterThan (toLowerCase query)) as [n|].
      * split; [|discriminate]. intros _.
        destruct (proj1 Hs eq_refl) as (d & Hd & H).
        exists d. split; [exact Hd | left; exact H].
      * split; [congruence|]. intros (d & Hd & [H|H]).
        -- assert (F : isSome (@None jsstring) = true)
             by (apply Hs; exists d; split; assumption).
           discriminate.
        -- assert (F : isSome (@None jsstring) = true)
             by (apply He; exists d; split; assumption).
           discriminate.
Qed.

(** X17: A [contains_character] produced by the interpreter is always one
    lower-case ASCII letter, so the condition it stands for is plain
    membership of that letter in the value. *)
Theorem parse_contains_character_is_letter query c :
  FilterStringsDto.contains_character (parse query) = Some c ->
  exists u, c = [u] /\ isLowerAZ u = true
    /\ forall r,
         matches r (FilterStringsDto.set_contains_character c
                      FilterStringsDto.empty) = true
         <-> List.In u (AnalyzedString.value r).
Proof.
  intros H.
  assert (L : exists u, c = [u] /\ isLowerAZ u = true).
  { rewrite parse_contains_character in H. cbv zeta in H.
    destruct (includes (toLowerCase query) (js "vowel")) eqn:Hv.
    - rewrite (firstVowelIn_vowel _ Hv) in H. injection H as <-.
      destruct (includes (toLowerCase query) (js "a"));
        [exists 97 | exists 101]; split; reflexivity.
    - destruct (includes (toLowerCase query) (js "first vowel")).
      + injection H as <-. exists 97. split; reflexivity.
      + apply reContainsLetter_result in H. exact H. }
  destruct L as (u & -> & Hu). exists u.
  split; [reflexivity | split; [exact Hu|]].
  intros r. apply matches_letter, Hu.
Qed.

(** X15: In every parsed filter a present [word_count] is 1, 2 or 3, a
    present [min_length] is at least 0 and a present [max_length] is at
    least -1. *)
Theorem parsed_numbers_in_range query :
  (forall v,
     FilterStringsDto.word_count
       (parseNaturalLanguageQuery toLowerCase query) = Some v ->
     (1 <= v <= 3)%Z)
  /\ (forall v,
        FilterStringsDto.min_length
          (parseNaturalLanguageQuery toLowerCase query) = Some v ->
        (0 <= v)%Z)
  /\ (forall v,
        FilterStringsDto.max_length
          (parseNaturalLanguageQuery toLowerCase query) = Some v ->
        (-1 <= v)%Z).
Proof. apply parse_numeric_bounds. Qed.

End MoreInterpreter.

Lemma parse_contains_character_is_letter_witness :
  exists u, js "z" = [u] /\ isLowerAZ u = true
    /\ forall r,
         matches r (FilterStringsDto.set_contains_character (js "z")
                      FilterStringsDto.empty) = true
         <-> List.In u (AnalyzedString.value r).
Proof.
  apply (parse_contains_character_is_letter asciiToLowerCase
           (js "palindromic strings that contain the letter z") (js "z")).
  reflexivity.
Defined.

Lemma vowel_rule_decides_witness :
  FilterStringsDto.contains_character
    (parseNaturalLanguageQuery asciiToLowerCase
       (js "strings that contain the letter z or some vowel"))
  = firstVowelIn (asciiToLowerCase
       (js "strings that contain the letter z or some vowel"))
  /\ firstVowelIn (asciiToLowerCase
       (js "strings that contain the letter z or some vowel"))
     = Some (js "a").
Proof.
  apply (vowel_rule_decides asciiToLowerCase
           (js "strings that contain the letter z or some vowel")).
  reflexivity.
Defined.

Lemma exact_length_sets_both_bounds_witness :
  FilterStringsDto.min_length
    (parseNaturalLanguageQuery asciiToLowerCase
       (js "longer than 9 and shorter than 3 with length of 7"))
  = Some 7%Z
  /\ FilterStringsDto.max_length
       (parseNaturalLanguageQuery asciiToLowerCase
          (js "longer than 9 and shorter than 3 with length of 7"))
     = Some 7%Z.
Proof.
  apply (exact_length_sets_both_bounds asciiToLowerCase
           (js "longer than 9 and shorter than 3 with length of 7") (js "7")).
  - reflexivity.
  - reflexivity.
Defined.

Lemma parsed_numbers_in_range_witness :
  (1 <= 2 <= 3)%Z /\ (0 <= 11)%Z /\ (-1 <= -1)%Z.
Proof.
  split; [|split].
  - apply (proj1 (parsed_numbers_in_range asciiToLowerCase
                    (js "two word strings")) 2%Z). reflexivity.
  - apply (proj1 (proj2 (parsed_numbers_in_range asciiToLowerCase
                    (js "strings longer than 10 characters"))) 11%Z).
    reflexivity.
  - apply (proj2 (proj2 (parsed_numbers_in_range asciiToLowerCase
                    (js "strings shorter than 0"))) (-1)%Z).
    reflexivity.
Defined.

(** *** Which number the length rules read *)

Lemma search_leftmost {A} (m : jsstring -> option A) s r :
  search m s = Some r
  <-> exists pre post,
        s = pre ++ post /\ m post = Some r
        /\ forall a b, s = a ++ b ->
                       (List.length a < List.length pre)%nat -> m b = None.
Proof.
  induction s as [|c s IH]; simpl.
  - split.
    + destruct (m []) as [x|] eqn:E; [|discriminate]. intros [= <-].
      exists [], []. split; [reflexivity | split; [exact E|]]. intros a b _ H. simpl in H. lia.
    + intros (pre & post & Hs & Hm & _).
      symmetry in Hs. apply List.app_eq_nil in Hs as [_ ->].
      rewrite Hm. reflexivity.
  - destruct (m (c :: s)) as [y|] eqn:E.
    + split.
      * intros [= <-]. exists [], (c :: s).
        split; [reflexivity | split; [exact E|]]. intros a b _ H. simpl in H. lia.
      * intros ([|x pre] & post & Hs & Hm & Hleft); simpl in Hs.
        -- subst post. congruence.
        -- rewrite (Hleft [] (c :: s) eq_refl) in E by (simpl; lia).
           discriminate.
    + rewrite IH. split.
      * intros (pre & post & -> & Hm & Hleft). exists (c :: pre), post.
        split; [reflexivity | split; [exact Hm|]]. intros [|x a] b Hs Hlen; simpl in Hs.
        -- subst b. exact E.
        -- injection Hs as -> Hs. apply (Hleft a b Hs). simpl in Hlen. lia.
      * intros ([|x pre] & post & Hs & Hm & Hleft); simpl in Hs.
        -- subst post. congruence.
        -- injection Hs as -> ->. exists pre, post.
           split; [reflexivity | split; [exact Hm|]]. intros a b Hs Hlen.
           apply (Hleft (x :: a) b); [rewrite Hs; reflexivity | simpl; lia].
Qed.

Lemma takeWhile_run p n rest :
  List.forallb p n = true ->
  (forall d rest', rest = d :: rest' -> p d = false) ->
  takeWhile p (n ++ rest) = n.
Proof.
  intros Hn Hrest. induction n as [|c n IH]; simpl in *.
  - destruct rest as [|d rest']; [reflexivity|].
    simpl. rewrite (Hrest d rest' eq_refl). reflexivity.
  - apply andb_true_iff in Hn as [Hc Hn]. rewrite Hc, IH by exact Hn.
    reflexivity.
Qed.

Lemma isSome_false {A} (o : option A) : isSome o = false <-> o = None.
Proof. destruct o; simpl; split; congruence. Qed.

(** The pattern [literal(\d+)] returns the whole run of digits that
    follows the first occurrence of the literal with a digit after
    it. *)
Lemma literal_digits_leftmost p pre n rest :
  n <> [] ->
  List.forallb isDigit n = true ->
  (forall d rest', rest = d :: rest' -> isDigit d = false) ->
  search (lit p digits1) (pre ++ p) = None ->
  search (lit p digits1) (pre ++ p ++ n ++ rest) = Some n.
Proof.
  intros Hne Hn Hrest Hnone. apply search_leftmost.
  exists pre, (p ++ n ++ rest). split; [reflexivity|]. split.
  - unfold lit. rewrite stripPrefix_app. unfold digits1.
    rewrite (takeWhile_run isDigit n rest Hn Hrest).
    destruct n; [contradiction | reflexivity].
  - intros a b Hs Hlen. apply isSome_false.
    destruct (isSome (lit p digits1 b)) eqn:F; [|reflexivity].
    exfalso. apply lit_isSome in F as (rest0 & -> & F).
    apply digits1_isSome in F as (d & rest1 & -> & Hd).
    assert (Hsome : isSome (search (lit p digits1) (pre ++ p)) = true).
    { apply search_isSome.
      assert (Hpre : pre ++ p
                     = List.firstn (List.length pre + List.length p)
                         (a ++ p ++ d :: rest1)).
      { rewrite <- Hs, List.app_assoc, List.firstn_app.
        rewrite <- List.length_app, List.firstn_all, Nat.sub_diag.
        simpl. rewrite List.app_nil_r. reflexivity. }
      exists a, (List.firstn (List.length pre + List.length p - List.length a)
                   (p ++ d :: rest1)).
      split.
      - rewrite Hpre, List.firstn_app.
        rewrite List.firstn_all2 by lia. reflexivity.
      - apply lit_isSome.
        exists (List.firstn (List.length pre - List.length a) (d :: rest1)).
        split.
        + rewrite List.firstn_app, List.firstn_all2 by lia.
          f_equal. f_equal. lia.
        + apply digits1_isSome.
          destruct (List.length pre - List.length a)%nat as [|k] eqn:K; [lia|].
          simpl. exists d, (List.firstn k rest1).
          split; [reflexivity | exact Hd]. }
    rewrite Hnone in Hsome. discriminate.
Qed.

Section LengthRules.

Variable toLowerCase : jsstring -> jsstring.

Local Abbreviation parse := (parseNaturalLanguageQuery toLowerCase).

(** X12: "longer than N": when the folded text has no exact-length phrase,
    [min_length] is N + 1 for the whole number N that follows the first
    "longer than " with a digit after it, as long as N is below 2^53
    (where the source's numbers are exact). *)
Theorem longer_than_sets_min_length query pre n rest :
  toLowerCase query = pre ++ js "longer than " ++ n ++ rest ->
  n <> [] ->
  List.forallb isDigit n = true ->
  (forall d rest', rest = d :: rest' -> isDigit d = false) ->
  reLongerThan (pre ++ js "longer than ") = None ->
  reExactLength (toLowerCase query) = None ->
  (parseInt10 n < 2 ^ 53)%Z ->
  FilterStringsDto.min_length (parse query) = Some (parseInt10 n + 1)%Z.
Proof.
  intros Hq Hne Hn Hrest Hnone Hexact _.
  rewrite parse_min_length. cbv zeta. rewrite Hexact, Hq.
  unfold reLongerThan.
  rewrite (literal_digits_leftmost _ pre n rest Hne Hn Hrest Hnone).
  reflexivity.
Qed.

(** X13: "shorter than N": likewise, for N below 2^53, [max_length] is
    N - 1. *)
Theorem shorter_than_sets_max_length query pre n rest :
  toLowerCase query = pre ++ js "shorter than " ++ n ++ rest ->
  n <> [] ->
  List.forallb isDigit n = true ->
  (forall d rest', rest = d :: rest' -> isDigit d = false) ->
  reShorterThan (pre ++ js "shorter than ") = None ->
  reExactLength (toLowerCase query) = None ->
  (parseInt10 n < 2 ^ 53)%Z ->
  FilterStringsDto.max_length (parse query) = Some (parseInt10 n - 1)%Z.
Proof.
  intros Hq Hne Hn Hrest Hnone Hexact _.
  rewrite parse_max_length. cbv zeta. rewrite Hexact, Hq.
  unfold reShorterThan.
  rewrite (literal_digits_leftmost _ pre n rest Hne Hn Hrest Hnone).
  reflexivity.
Qed.

End LengthRules.

Lemma longer_than_sets_min_length_witness :
  FilterStringsDto.min_length
    (parseNaturalLanguageQuery asciiToLowerCase
       (js "Strings LONGER than 10 characters"))
  = Some (parseInt10 (js "10") + 1)%Z.
Proof.
  apply (longer_than_sets_min_length asciiToLowerCase
           (js "Strings LONGER than 10 characters")
           (js "strings ") (js "10") (js " characters")).
  - reflexivity.
  - discriminate.
  - reflexivity.
  - intros d rest' [= <- _]. reflexivity.
  - reflexivity.
  - reflexivity.
  - reflexivity.
Defined.

Lemma shorter_than_sets_max_length_witness :
  FilterStringsDto.max_length
    (parseNaturalLanguageQuery asciiToLowerCase
       (js "strings shorter than 5 characters"))
  = Some (parseInt10 (js "5") - 1)%Z.
Proof.
  apply (shorter_than_sets_max_length asciiToLowerCase
           (js "strings shorter than 5 characters")
           (js "strings ") (js "5") (js " characters")).
  - reflexivity.
  - discriminate.
  - reflexivity.
  - intros d rest' [= <- _]. reflexivity.
  - reflexivity.
  - reflexivity.
  - reflexivity.
Defined.

(** ** The repository methods *)

Lemma lookup_None store value :
  StringsService.lookup store value = None
  <-> ~ List.In value (storedValues store).
Proof.
  unfold StringsService.lookup, storedValues, StringsService.hasValue.
  induction store as [|r store IH]; simpl.
  - tauto.
  - destruct (strEq (AnalyzedString.value r) value) eqn:E.
    + apply strEq_spec in E. split; [discriminate | tauto].
    + rewrite IH. split; [|tauto]. intros H [H1|H1]; [|tauto].
      subst value. rewrite strEq_refl in E. discriminate.
Qed.

Lemma lookup_Some store value r :
  StringsService.lookup store value = Some r ->
  List.In r store /\ AnalyzedString.value r = value.
Proof.
  unfold StringsService.lookup. intros H. apply List.find_some in H as [H1 H2].
  split; [exact H1 | apply strEq_spec, H2].
Qed.

Lemma lookup_app_fresh store value row :
  ~ List.In value (storedValues store) ->
  StringsService.lookup (store ++ [row]) value
  = if StringsService.hasValue value row then Some row else None.
Proof.
  intros H. apply lookup_None in H. revert H.
  unfold StringsService.lookup. induction store as [|r store IH]; simpl.
  - destruct (StringsService.hasValue value row); reflexivity.
  - destruct (StringsService.hasValue value r); [discriminate | exact IH].
Qed.

Lemma lookup_app_other store value row :
  StringsService.hasValue value row = false ->
  StringsService.lookup (store ++ [row]) value
  = StringsService.lookup store value.
Proof.
  intros H. unfold StringsService.lookup.
  induction store as [|r store IH]; simpl.
  - rewrite H. reflexivity.
  - destruct (StringsService.hasValue value r); [reflexivity | exact IH].
Qed.

Lemma existsb_hasValue_false store value (p : AnalyzedString.t -> bool) :
  ~ List.In value (storedValues store) ->
  List.existsb (fun r => p r && StringsService.hasValue value r) store = false.
Proof.
  intros H. apply lookup_None in H. revert H. unfold StringsService.lookup.
  induction store as [|r store IH]; simpl; [reflexivity|].
  destruct (StringsService.hasValue value r); [discriminate|].
  rewrite andb_false_r. exact IH.
Qed.

Lemma existsb_hasId store id :
  List.existsb (StringsService.hasId id) store = true
  <-> List.In id (List.map AnalyzedString.id store).
Proof.
  unfold StringsService.hasId. induction store as [|r store IH]; simpl.
  - split; [discriminate | tauto].
  - rewrite orb_true_iff, IH, strEq_spec. tauto.
Qed.

Lemma lookup_updated store id value properties :
  ~ List.In value (storedValues store) ->
  List.In id (List.map AnalyzedString.id store) ->
  exists created_at,
    StringsService.lookup
      (List.map
         (fun r =>
            if StringsService.hasId id r
            then AnalyzedString.mk id value properties
                                   (AnalyzedString.created_at r)
            else r)
         store) value
    = Some (AnalyzedString.mk id value properties created_at).
Proof.
  unfold StringsService.lookup, storedValues.
  induction store as [|r store IH]; simpl; [tauto|].
  intros Hv Hid.
  destruct (StringsService.hasId id r) eqn:E.
  - exists (AnalyzedString.created_at r).
    unfold StringsService.hasValue at 1. simpl. rewrite strEq_refl. reflexivity.
  - assert (Hr : StringsService.hasValue value r = false).
    { unfold StringsService.hasValue. apply strEq_false. tauto. }
    rewrite Hr. apply IH; [tauto|].
    destruct Hid as [Hid|Hid]; [|exact Hid].
    unfold StringsService.hasId in E. rewrite Hid, strEq_refl in E.
    discriminate.
Qed.

Lemma filter_hasValue_absent store value :
  ~ List.In value (storedValues store) ->
  List.filter (fun r => negb (StringsService.hasValue value r)) store = store.
Proof.
  unfold storedValues, StringsService.hasValue.
  induction store as [|r store IH]; simpl; intros H; [reflexivity|].
  rewrite strEq_false by tauto. simpl. f_equal. apply IH. tauto.
Qed.

Lemma filter_hasValue_nil store value :
  List.filter (StringsService.hasValue value) store = []
  <-> ~ List.In value (storedValues store).
Proof.
  unfold storedValues, StringsService.hasValue.
  induction store as [|r store IH]; simpl; [tauto|].
  destruct (strEq (AnalyzedString.value r) value) eqn:E.
  - apply strEq_spec in E. split; [discriminate | tauto].
  - rewrite IH. split; [|tauto]. intros H [H1|H1]; [|tauto].
    subst value. rewrite strEq_refl in E. discriminate.
Qed.

Lemma lookup_filter_other store value w :
  w <> value ->
  StringsService.lookup
    (List.filter (fun r => negb (StringsService.hasValue value r)) store) w
  = StringsService.lookup store w.
Proof.
  intros Hw. unfold StringsService.lookup, StringsService.hasValue.
  induction store as [|r store IH]; simpl; [reflexivity|].
  destruct (strEq (AnalyzedString.value r) value) eqn:E; simpl.
  - apply strEq_spec in E. rewrite E, (strEq_false value w) by congruence.
    exact IH.
  - destruct (strEq (AnalyzedString.value r) w); [reflexivity | exact IH].
Qed.

Lemma lookup_filter_gone store value :
  StringsService.lookup
    (List.filter (fun r => negb (StringsService.hasValue value r)) store) value
  = None.
Proof.
  apply lookup_None. unfold storedValues. intros Hin.
  apply List.in_map_iff in Hin as (x & Hx & Hin).
  apply List.filter_In in Hin as [_ Hin].
  unfold StringsService.hasValue in Hin.
  rewrite Hx, strEq_refl in Hin. discriminate.
Qed.


(** A text parameter is refused, or sent as its well-formed form. *)
Lemma textParameter_cases s :
  (hasNul (toWellFormed s) = true
   /\ StringsService.textParameter s = inl QueryFailedError)
  \/ (hasNul (toWellFormed s) = false
      /\ StringsService.textParameter s = inr (toWellFormed s)).
Proof.
  unfold StringsService.textParameter. cbv zeta.
  destruct (hasNul (toWellFormed s)); [left | right]; split; reflexivity.
Qed.

Lemma takesRow_true storable value :
  takesRow storable value = true ->
  hasNul value = false /\ toWellFormed value = value
  /\ storable value = true
  /\ StringsService.textParameter value = inr value.
Proof.
  unfold takesRow. rewrite !andb_true_iff, negb_true_iff, strEq_spec.
  intros [[Hn Hw] Hs]. repeat split; try assumption.
  unfold StringsService.textParameter. cbv zeta. rewrite Hw, Hn. reflexivity.
Qed.

Section Repository.

Variable toLowerCase : jsstring -> jsstring.
Variable sha256Hex : jsstring -> jsstring.
Variable storable : jsstring -> bool.

Local Abbreviation compute := (computeProperties toLowerCase sha256Hex).
Local Abbreviation create :=
  (StringsService.create toLowerCase sha256Hex storable).

(** The row [create] writes for a value at a given time. *)
Local Abbreviation rowOf value now :=
  (AnalyzedString.mk (sha256Hex value) value (compute value) now).

Lemma create_refused_parameter store now dto :
  hasNul (toWellFormed (CreateStringDto.value dto)) = true ->
  create store now dto = inl QueryFailedError.
Proof.
  intros H. unfold StringsService.create, StringsService.findOne,
    StringsService.textParameter. cbv zeta. rewrite H. reflexivity.
Qed.

Lemma create_present store now dto :
  hasNul (toWellFormed (CreateStringDto.value dto)) = false ->
  List.In (toWellFormed (CreateStringDto.value dto)) (storedValues store) ->
  create store now dto = inl (Http ConflictException).
Proof.
  intros Hn H. unfold StringsService.create, StringsService.findOne,
    StringsService.textParameter. cbv zeta. rewrite Hn.
  destruct (StringsService.lookup store _) eqn:E; [reflexivity|].
  apply lookup_None in E. contradiction.
Qed.

Lemma create_refused_row store now dto :
  hasNul (toWellFormed (CreateStringDto.value dto)) = false ->
  ~ List.In (toWellFormed (CreateStringDto.value dto)) (storedValues store) ->
  takesRow storable (CreateStringDto.value dto) = false ->
  create store now dto = inl QueryFailedError.
Proof.
  intros Hn H Ht. unfold StringsService.create, StringsService.findOne,
    StringsService.textParameter. cbv zeta. rewrite Hn.
  rewrite (proj2 (lookup_None store _) H).
  unfold StringsService.save. unfold takesRow in Ht.
  destruct (hasNul (CreateStringDto.value dto)),
           (strEq (toWellFormed (CreateStringDto.value dto))
                  (CreateStringDto.value dto)),
           (storable (CreateStringDto.value dto));
    try discriminate; reflexivity.
Qed.

Lemma create_absent store now dto :
  takesRow storable (CreateStringDto.value dto) = true ->
  ~ List.In (CreateStringDto.value dto) (storedValues store) ->
  create store now dto
  = if List.existsb (StringsService.hasId (sha256Hex (CreateStringDto.value dto)))
                    store
    then inr (List.map
                (fun r =>
                   if StringsService.hasId
                        (sha256Hex (CreateStringDto.value dto)) r
                   then AnalyzedString.mk
                          (sha256Hex (CreateStringDto.value dto))
                          (CreateStringDto.value dto)
                          (compute (CreateStringDto.value dto))
                          (AnalyzedString.created_at r)
                   else r)
                store,
              StringsService.Updated
                (sha256Hex (CreateStringDto.value dto))
                (CreateStringDto.value dto)
                (compute (CreateStringDto.value dto)))
    else inr (store ++ [rowOf (CreateStringDto.value dto) now],
              StringsService.Inserted (rowOf (CreateStringDto.value dto) now)).
Proof.
  intros Ht H. destruct (takesRow_true _ _ Ht) as (Hn & Hw & Hs & Hp).
  unfold StringsService.create, StringsService.findOne. cbv zeta.
  rewrite Hp, (proj2 (lookup_None store _) H).
  unfold StringsService.save.
  rewrite Hn, Hw, strEq_refl, Hs. cbn [negb orb].
  rewrite (existsb_hasValue_false store _ _ H). reflexivity.
Qed.

Lemma In_storedValues_dec store (value : jsstring) :
  List.In value (storedValues store) \/ ~ List.In value (storedValues store).
Proof.
  destruct (StringsService.lookup store value) eqn:E.
  - left. apply lookup_Some in E as [Hin <-].
    apply List.in_map, Hin.
  - right. apply lookup_None, E.
Qed.

(** A successful [create] was one of a storable value that was not
    stored. *)
Lemma create_inr store now dto store' saved :
  create store now dto = inr (store', saved) ->
  takesRow storable (CreateStringDto.value dto) = true
  /\ ~ List.In (CreateStringDto.value dto) (storedValues store).
Proof.
  intros H.
  destruct (textParameter_cases (CreateStringDto.value dto))
    as [[Hn _] | [Hn _]].
  { rewrite (create_refused_parameter store now dto Hn) in H. discriminate. }
  destruct (In_storedValues_dec store
              (toWellFormed (CreateStringDto.value dto))) as [Hin|Hin].
  { rewrite (create_present store now dto Hn Hin) in H. discriminate. }
  destruct (takesRow storable (CreateStringDto.value dto)) eqn:Ht.
  - split; [reflexivity|].
    destruct (takesRow_true _ _ Ht) as (_ & Hw & _). rewrite <- Hw. exact Hin.
  - rewrite (create_refused_row store now dto Hn Hin Ht) in H. discriminate.
Qed.

(** X18: [create] throws [ConflictException] exactly when the database
    takes the value as a parameter and a record with it (as sent) is
    stored.  It throws the database's error when the value holds
    U+0000, and when the value is not stored and the database does not
    take a row with it (a lone surrogate, an index entry too large). *)
Theorem create_conflict_iff_stored store now dto :
  let value := CreateStringDto.value dto in
  (create store now dto = inl (Http ConflictException)
   <-> hasNul (toWellFormed value) = false
       /\ List.In (toWellFormed value) (storedValues store))
  /\ (hasNul (toWellFormed value) = true ->
      create store now dto = inl QueryFailedError)
  /\ (hasNul (toWellFormed value) = false ->
      ~ List.In (toWellFormed value) (storedValues store) ->
      takesRow storable value = false ->
      create store now dto = inl QueryFailedError).
Proof.
  cbv zeta.
  split; [|split;
           [apply create_refused_parameter | apply create_refused_row]].
  split.
  - intros H.
    destruct (textParameter_cases (CreateStringDto.value dto))
      as [[Hn _] | [Hn _]].
    { rewrite (create_refused_parameter store now dto Hn) in H.
      discriminate. }
    split; [exact Hn|].
    destruct (In_storedValues_dec store
                (toWellFormed (CreateStringDto.value dto))) as [Hin|Hin];
      [exact Hin|].
    destruct (takesRow storable (CreateStringDto.value dto)) eqn:Ht.
    + destruct (takesRow_true _ _ Ht) as (_ & Hw & _). rewrite Hw in Hin.
      rewrite (create_absent store now dto Ht Hin) in H.
      destruct (List.existsb _ store); discriminate.
    + rewrite (create_refused_row store now dto Hn Hin Ht) in H.
      discriminate.
  - intros [Hn Hin]. apply create_present; assumption.
Qed.

Lemma create_then_lookup store now dto store' saved :
  create store now dto = inr (store', saved) ->
  exists created_at,
    StringsService.lookup store' (CreateStringDto.value dto)
    = Some (rowOf (CreateStringDto.value dto) created_at).
Proof.
  intros H. destruct (create_inr _ _ _ _ _ H) as [Ht Hv].
  rewrite (create_absent store now dto Ht Hv) in H.
  destruct (List.existsb _ store) eqn:E; injection H as <- <-.
  - apply lookup_updated; [exact Hv | apply existsb_hasId, E].
  - exists now. rewrite lookup_app_fresh by exact Hv.
    unfold StringsService.hasValue. simpl. rewrite strEq_refl. reflexivity.
Qed.

(** X19: After a successful [create], [findByValue] returns the record of
    the value: its [id] is the digest, its [properties] are the computed
    ones; and creating the same value again is a conflict. *)
Theorem create_then_findByValue store now dto store' saved :
  create store now dto = inr (store', saved) ->
  (exists created_at,
     StringsService.findByValue store' (CreateStringDto.value dto)
     = inr (rowOf (CreateStringDto.value dto) created_at))
  /\ forall now', create store' now' dto = inl (Http ConflictException).
Proof.
  intros H. destruct (create_then_lookup _ _ _ _ _ H) as [t E].
  destruct (create_inr _ _ _ _ _ H) as [Ht _].
  destruct (takesRow_true _ _ Ht) as (_ & _ & _ & Hp).
  split.
  - exists t. unfold StringsService.findByValue, StringsService.findOne.
    rewrite Hp, E. reflexivity.
  - intros now'. unfold StringsService.create, StringsService.findOne.
    cbv zeta. rewrite Hp, E. reflexivity.
Qed.

Lemma create_fresh store now dto :
  takesRow storable (CreateStringDto.value dto) = true ->
  ~ List.In (CreateStringDto.value dto) (storedValues store) ->
  ~ List.In (sha256Hex (CreateStringDto.value dto))
            (List.map AnalyzedString.id store) ->
  create store now dto
  = inr (store ++ [rowOf (CreateStringDto.value dto) now],
         StringsService.Inserted (rowOf (CreateStringDto.value dto) now)).
Proof.
  intros Ht Hv Hid. rewrite (create_absent store now dto Ht Hv).
  destruct (List.existsb _ store) eqn:E; [|reflexivity].
  apply existsb_hasId in E. contradiction.
Qed.

(** X20: When the database takes a row with the value and neither the
    value nor its digest is in the table, [create] appends one row
    stamped with the current time and returns it; the lookup of every
    other value is as before, and deleting the value again restores the
    table. *)
Theorem create_fresh_appends store now dto :
  let value := CreateStringDto.value dto in
  takesRow storable value = true ->
  ~ List.In value (storedValues store) ->
  ~ List.In (sha256Hex value) (List.map AnalyzedString.id store) ->
  create store now dto
  = inr (store ++ [rowOf value now], StringsService.Inserted (rowOf value now))
  /\ (forall w, toWellFormed w <> value ->
        StringsService.findByValue (store ++ [rowOf value now]) w
        = StringsService.findByValue store w)
  /\ StringsService.delete (store ++ [rowOf value now]) value = inr store.
Proof.
  cbv zeta. intros Ht Hv Hid.
  destruct (takesRow_true _ _ Ht) as (_ & _ & _ & Hp).
  split; [|split].
  - apply create_fresh; assumption.
  - intros w Hw. unfold StringsService.findByValue, StringsService.findOne.
    destruct (StringsService.textParameter w) as [e|sent] eqn:E;
      [reflexivity|].
    assert (Hsent : sent = toWellFormed w).
    { destruct (textParameter_cases w) as [[_ F] | [_ F]];
        rewrite F in E; congruence. }
    rewrite lookup_app_other; [reflexivity|].
    unfold StringsService.hasValue. simpl. apply strEq_false. congruence.
  - unfold StringsService.delete. rewrite Hp. cbv zeta.
    rewrite !List.filter_app, (filter_hasValue_absent store _ Hv).
    rewrite (proj2 (filter_hasValue_nil store _) Hv).
    unfold StringsService.hasValue. simpl. rewrite strEq_refl. simpl.
    rewrite List.app_nil_r. reflexivity.
Qed.

(** X21: [delete] throws the database's error when the value holds
    U+0000; otherwise it throws [NotFoundException] exactly when no
    record has the value (as sent).  When it succeeds the value is
    gone, the table is shorter, and the lookup of every other value is
    as before. *)
Theorem delete_removes_value store value :
  (hasNul (toWellFormed value) = true ->
   StringsService.delete store value = inl QueryFailedError)
  /\ (hasNul (toWellFormed value) = false ->
      (StringsService.delete store value = inl (Http NotFoundException)
       <-> ~ List.In (toWellFormed value) (storedValues store)))
  /\ (forall store',
        StringsService.delete store value = inr store' ->
        StringsService.findByValue store' value
        = inl (Http NotFoundException)
        /\ (List.length store' < List.length store)%nat
        /\ forall w, toWellFormed w <> toWellFormed value ->
             StringsService.findByValue store' w
             = StringsService.findByValue store w).
Proof.
  unfold StringsService.delete, StringsService.findByValue,
    StringsService.findOne.
  destruct (textParameter_cases value) as [[Hn ->] | [Hn ->]]; rewrite Hn.
  { split; [reflexivity|]. split; [discriminate|]. intros store' H.
    discriminate. }
  split; [discriminate|]. cbv zeta.
  pose proof (filter_hasValue_nil store (toWellFormed value)) as Hnil.
  pose proof (List.filter_length
                (StringsService.hasValue (toWellFormed value)) store) as Hlen.
  destruct (List.filter (StringsService.hasValue (toWellFormed value)) store)
    as [|r rs] eqn:E; simpl Nat.eqb; cbv iota.
  - split.
    + intros _. split; [intros _; apply Hnil; reflexivity | reflexivity].
    + intros store' H. discriminate.
  - split.
    + intros _. split; [discriminate|]. intros H. apply Hnil in H.
      discriminate.
    + intros store' [= <-]. split; [|split].
      * rewrite lookup_filter_gone. reflexivity.
      * simpl in Hlen. lia.
      * intros w Hw.
        destruct (StringsService.textParameter w) as [e|sent] eqn:F;
          [reflexivity|].
        assert (Hsent : sent = toWellFormed w).
        { destruct (textParameter_cases w) as [[_ G] | [_ G]];
            rewrite G in F; congruence. }
        rewrite lookup_filter_other by congruence. reflexivity.
Qed.

End Repository.

Lemma create_conflict_iff_stored_witness :
  StringsService.create asciiToLowerCase noDigest noLimit [] 1
    (CreateStringDto.mk [97; 0; 98])
  = inl QueryFailedError.
Proof.
  apply (proj1 (proj2 (create_conflict_iff_stored asciiToLowerCase noDigest
           noLimit [] 1%Z (CreateStringDto.mk [97; 0; 98])))).
  reflexivity.
Defined.

Lemma create_then_findByValue_witness :
  (exists created_at,
     StringsService.findByValue
       [AnalyzedString.mk (noDigest (js "abc")) (js "abc")
          (computeProperties asciiToLowerCase noDigest (js "abc")) 7]
       (js "abc")
     = inr (AnalyzedString.mk (noDigest (js "abc")) (js "abc")
              (computeProperties asciiToLowerCase noDigest (js "abc"))
              created_at))
  /\ forall now',
       StringsService.create asciiToLowerCase noDigest noLimit
         [AnalyzedString.mk (noDigest (js "abc")) (js "abc")
            (computeProperties asciiToLowerCase noDigest (js "abc")) 7]
         now' (CreateStringDto.mk (js "abc"))
       = inl (Http ConflictException).
Proof.
  apply (create_then_findByValue asciiToLowerCase noDigest noLimit [] 7%Z
           (CreateStringDto.mk (js "abc")) _
           (StringsService.Inserted
              (AnalyzedString.mk (noDigest (js "abc")) (js "abc")
                 (computeProperties asciiToLowerCase noDigest (js "abc")) 7))).
  reflexivity.
Defined.

Lemma create_fresh_appends_witness :
  StringsService.create asciiToLowerCase noDigest noLimit [] 7
    (CreateStringDto.mk (js "abc"))
  = inr ([AnalyzedString.mk (noDigest (js "abc")) (js "abc")
            (computeProperties asciiToLowerCase noDigest (js "abc")) 7],
         StringsService.Inserted
           (AnalyzedString.mk (noDigest (js "abc")) (js "abc")
              (computeProperties asciiToLowerCase noDigest (js "abc")) 7)).
Proof.
  apply (proj1 (create_fresh_appends asciiToLowerCase noDigest noLimit [] 7%Z
                  (CreateStringDto.mk (js "abc"))
                  eq_refl (fun H => H) (fun H => H))).
Defined.

Lemma delete_removes_value_witness :
  StringsService.findByValue [] (js "abc") = inl (Http NotFoundException)
  /\ (0 < 1)%nat
  /\ forall w, toWellFormed w <> toWellFormed (js "abc") ->
       StringsService.findByValue [] w
       = StringsService.findByValue
           [AnalyzedString.mk (noDigest (js "abc")) (js "abc")
              (computeProperties asciiToLowerCase noDigest (js "abc")) 7] w.
Proof.
  apply (proj2 (proj2 (delete_removes_value
           [AnalyzedString.mk (noDigest (js "abc")) (js "abc")
              (computeProperties asciiToLowerCase noDigest (js "abc")) 7]
           (js "abc"))) []).
  reflexivity.
Defined.

(** ** What the table keeps *)

Lemma NoDup_snoc {A} (l : list A) x :
  List.NoDup l -> ~ List.In x l -> List.NoDup (l ++ [x]).
Proof.
  intros Hl Hx. apply List.NoDup_app; [exact Hl | | ].
  - constructor; [intros [] | constructor].
  - intros a Ha [<-|[]]. contradiction.
Qed.

Lemma NoDup_map_filter {A B} (f : A -> B) (p : A -> bool) l :
  List.NoDup (List.map f l) -> List.NoDup (List.map f (List.filter p l)).
Proof.
  induction l as [|x l IH]; simpl; intros H; [constructor|].
  apply List.NoDup_cons_iff in H as [Hx Hl].
  destruct (p x); simpl; [|apply IH, Hl].
  constructor; [|apply IH, Hl].
  intros Hin. apply Hx. apply List.in_map_iff in Hin as (y & Hy & Hin).
  apply List.in_map_iff. exists y. split; [exact Hy|].
  apply List.filter_In in Hin. tauto.
Qed.

Section Update.

Variables (id value : jsstring) (properties : StringProperties.t).

Local Abbreviation update :=
  (fun r => if StringsService.hasId id r
            then AnalyzedString.mk id value properties
                                   (AnalyzedString.created_at r)
            else r).

Lemma update_ids store :
  List.map AnalyzedString.id (List.map update store)
  = List.map AnalyzedString.id store.
Proof.
  induction store as [|r store IH]; simpl; [reflexivity|].
  rewrite IH. f_equal.
  destruct (StringsService.hasId id r) eqn:E; [|reflexivity].
  simpl. symmetry. apply strEq_spec, E.
Qed.

Lemma update_absent store :
  ~ List.In id (List.map AnalyzedString.id store) ->
  List.map update store = store.
Proof.
  induction store as [|r store IH]; simpl; intros H; [reflexivity|].
  rewrite IH by tauto. unfold StringsService.hasId.
  rewrite strEq_false by tauto. reflexivity.
Qed.

Lemma update_values_In store x :
  List.In x (storedValues (List.map update store)) ->
  x = value \/ List.In x (storedValues store).
Proof.
  unfold storedValues. induction store as [|r store IH]; simpl; [tauto|].
  intros [H|H]; [|destruct (IH H); tauto].
  destruct (StringsService.hasId id r); simpl in H; subst x; auto.
Qed.

Lemma update_values_NoDup store :
  List.NoDup (storedValues store) ->
  List.NoDup (List.map AnalyzedString.id store) ->
  ~ List.In value (storedValues store) ->
  List.NoDup (storedValues (List.map update store)).
Proof.
  unfold storedValues.
  induction store as [|r store IH]; simpl; intros Hv Hi Hn; [constructor|].
  apply List.NoDup_cons_iff in Hv as [Hv1 Hv2].
  apply List.NoDup_cons_iff in Hi as [Hi1 Hi2].
  destruct (StringsService.hasId id r) eqn:E.
  - apply strEq_spec in E. rewrite E in Hi1.
    rewrite (update_absent store Hi1). simpl.
    constructor; [tauto | exact Hv2].
  - constructor; [|apply IH; tauto].
    intros Hin. apply update_values_In in Hin. tauto.
Qed.

End Update.


Section Invariant.

Variable toLowerCase : jsstring -> jsstring.
Variable sha256Hex : jsstring -> jsstring.
Variable storable : jsstring -> bool.

Local Abbreviation compute := (computeProperties toLowerCase sha256Hex).
Local Abbreviation create :=
  (StringsService.create toLowerCase sha256Hex storable).
Local Abbreviation wellKept := (consistentStore toLowerCase sha256Hex).
Local Abbreviation rowOf value now :=
  (AnalyzedString.mk (sha256Hex value) value (compute value) now).

Lemma analyzedRow_rowOf value now :
  analyzedRow toLowerCase sha256Hex (rowOf value now).
Proof. split; reflexivity. Qed.

(** X22: The table starts, and stays under [create] and [delete], in a state
    where no two rows share a value or an [id], and every row carries
    the properties computed from its value and the digest of its value
    as [id]. *)
Theorem consistentStore_kept :
  wellKept []
  /\ (forall store now dto store' saved,
        wellKept store ->
        create store now dto = inr (store', saved) ->
        wellKept store')
  /\ (forall store value store',
        wellKept store ->
        StringsService.delete store value = inr store' ->
        wellKept store').
Proof.
  split; [|split].
  - repeat split; constructor.
  - intros store now dto store' saved (Hv & Hi & Hr) H.
    destruct (create_inr _ _ _ _ _ _ _ _ H) as [Ht Hin].
    rewrite (create_absent _ _ _ store now dto Ht Hin) in H.
    destruct (List.existsb _ store) eqn:E; injection H as <- <-.
    + split; [|split].
      * apply update_values_NoDup; assumption.
      * rewrite update_ids. exact Hi.
      * apply List.Forall_forall. intros x Hx.
        apply List.in_map_iff in Hx as (r & <- & Hr').
        destruct (StringsService.hasId _ r);
          [apply analyzedRow_rowOf|].
        eapply List.Forall_forall in Hr; [exact Hr | exact Hr'].
    + assert (Hid : ~ List.In (sha256Hex (CreateStringDto.value dto))
                        (List.map AnalyzedString.id store)).
      { intros F. apply existsb_hasId in F. congruence. }
      split; [|split].
      * unfold storedValues. rewrite List.map_app.
        apply NoDup_snoc; assumption.
      * rewrite List.map_app. apply NoDup_snoc; assumption.
      * apply List.Forall_app. split; [exact Hr|].
        constructor; [apply analyzedRow_rowOf | constructor].
  - intros store value store' (Hv & Hi & Hr) H.
    unfold StringsService.delete in H.
    destruct (StringsService.textParameter value) as [e|sent];
      [discriminate|].
    cbv zeta in H.
    destruct (Nat.eqb _ 0); [discriminate|]. injection H as <-.
    split; [|split].
    + apply NoDup_map_filter, Hv.
    + apply NoDup_map_filter, Hi.
    + apply List.Forall_forall. intros x Hx.
      apply List.filter_In in Hx as [Hx _].
      eapply List.Forall_forall in Hr; [exact Hr | exact Hx].
Qed.


(** X24: On a table written by [create], a negative [max_length] selects
    nothing: every stored [length] is at least 0. *)
Theorem findAll_negative_max_length_selects_nothing store filters hi :
  List.Forall (analyzedRow toLowerCase sha256Hex) store ->
  FilterStringsDto.max_length filters = Some hi ->
  (hi < 0)%Z ->
  forall result,
    findAll store filters = inr result ->
    data result = [] /\ count result = 0%Z.
Proof.
  intros Hr Hhi Hlt result. apply findAll_none_match. intros r Hin.
  rewrite matches_fields, Hhi. cbn [fieldOk].
  eapply List.Forall_forall in Hr; [|exact Hin]. destruct Hr as [Hp _].
  unfold props. rewrite Hp. cbn [StringProperties.length computeProperties].
  unfold jsLength.
  destruct (Z.leb_spec (Z.of_nat (List.length (AnalyzedString.value r))) hi);
    [lia|].
  rewrite !andb_false_r. reflexivity.
Qed.

End Invariant.

Lemma consistentStore_kept_witness :
  consistentStore asciiToLowerCase noDigest
    [AnalyzedString.mk (noDigest (js "abc")) (js "abc")
       (computeProperties asciiToLowerCase noDigest (js "abc")) 7].
Proof.
  apply (proj1 (proj2 (consistentStore_kept asciiToLowerCase noDigest noLimit))
           [] 7%Z (CreateStringDto.mk (js "abc")) _
           (StringsService.Inserted
              (AnalyzedString.mk (noDigest (js "abc")) (js "abc")
                 (computeProperties asciiToLowerCase noDigest (js "abc")) 7))).
  - apply (proj1 (consistentStore_kept asciiToLowerCase noDigest noLimit)).
  - reflexivity.
Defined.


Lemma findAll_negative_max_length_selects_nothing_witness :
  let r := AnalyzedString.mk (noDigest (js "abc")) (js "abc")
             (computeProperties asciiToLowerCase noDigest (js "abc")) 7 in
  let f := parseNaturalLanguageQuery asciiToLowerCase
             (js "strings shorter than 0") in
  data (mkFindAllResult [] 0 f) = [] /\ count (mkFindAllResult [] 0 f) = 0%Z.
Proof.
  intros r f.
  apply (findAll_negative_max_length_selects_nothing asciiToLowerCase noDigest
           [r] f (-1)%Z).
  - constructor; [split; reflexivity | constructor].
  - reflexivity.
  - lia.
  - reflexivity.
Defined.

(** The frequency sum on the ASCII value "hello world". *)
Lemma frequency_sum_is_length_without_surrogates_witness :
  sumValues (StringProperties.character_frequency_map
               (computeProperties asciiToLowerCase noDigest (js "hello world")))
  = StringProperties.length
      (computeProperties asciiToLowerCase noDigest (js "hello world")).
Proof.
  apply (frequency_sum_is_length_without_surrogates asciiToLowerCase noDigest
           (js "hello world")).
  reflexivity.
Defined.
